(** * Heatmap: a shallow embedding of [heatmap/heatmap.py]

    The Python class [Heatmap] is a thin wrapper around a native rendering
    routine [tx] reached through [ctypes].  The wrapper is embedded here as
    state-passing functions over a record of the instance attributes; the
    native routine, the single-precision conversion of [ctypes.c_float] and
    the [%2.16f] number formatting are parameters of the embedding.

    Data:
    - coordinates are rationals [Q] (every finite Python [int] or [float]
      is one); pixel sizes, channels and bytes are integers [Z];
    - a colour scheme is a [list (list Z)]: a Python list of tuples, whose
      arity is not fixed by the type;
    - a raised exception is a value of [exn]; a method returns [exn + A];
    - the scheme registry and the file system are finite maps keyed by
      strings. *)

From Stdlib Require Import ZArith QArith Qround Qminmax List Bool String Ascii.
From Stdlib Require Import DecimalString Lia.
From stdpp Require Import gmap strings list fin_maps.
Import ListNotations.

Local Open Scope Z_scope.

(** ** Python values *)

Definition Point : Type := Q * Q.
Definition Area : Type := Point * Point.
Definition RGB : Type := list Z.
Definition ColorScheme : Type := list RGB.

(** The exceptions the wrapper can raise, one constructor per raise site
    (explicit [raise] statements and the built-ins that fail). *)
Inductive exn : Type :=
| TypeError_InvalidRGB (rgb : RGB)
    (* [TypeError("Invalid RGB input %r." % str(rgb))] *)
| ValueError_MinEmpty
    (* [min(())]: "min() arg is an empty sequence" *)
| ValueError_UnknownScheme (scheme : string)
    (* [ValueError("Unknown color scheme ...")] *)
| ValueError_ArrayLength (n : Z)
    (* [ctypes.c_ubyte * n] with [n < 0] *)
| IndexError_ListIndex
    (* [points[0]] on an empty list *)
| TypeError_NoneSubscript
    (* [self.points[0]] while [self.points is None] *)
| Exception_Processing
    (* [Exception("Unexpected error during processing.")] *)
| Exception_NoImage.
    (* [Exception("Must first run heatmap() to generate image file.")] *)

Inductive exn_class : Type := TypeError | ValueError | IndexError | Exception.

Definition class_of (e : exn) : exn_class :=
  match e with
  | TypeError_InvalidRGB _ | TypeError_NoneSubscript => TypeError
  | ValueError_MinEmpty | ValueError_UnknownScheme _
  | ValueError_ArrayLength _ => ValueError
  | IndexError_ListIndex => IndexError
  | Exception_Processing | Exception_NoImage => Exception
  end.

(** Python's two-argument [min(a, b)] and [max(a, b)]: the first argument
    is kept unless the second is strictly smaller (resp. greater). *)
Definition py_min (a b : Q) : Q := if Qle_bool a b then a else b.
Definition py_max (a b : Q) : Q := if Qle_bool b a then a else b.

(** [min(t)] and [max(t)] of a non-empty tuple of integers [c :: cs]. *)
Definition tuple_min (c : Z) (cs : list Z) : Z := fold_left Z.min cs c.
Definition tuple_max (c : Z) (cs : list Z) : Z := fold_left Z.max cs c.

(** ** os.path.splitext (POSIX flavour)

    [genericpath._splitext]: the extension starts at the last dot that
    comes after the last separator, unless only dots precede it in the
    file name. *)
Module OsPath.

Fixpoint rfind_from (c : ascii) (s : string) (i : Z) (last : Z) : Z :=
  match s with
  | EmptyString => last
  | String a s' =>
      rfind_from c s' (i + 1) (if Ascii.eqb a c then i else last)
  end.

(** [p.rfind(c)], [-1] when absent. *)
Definition rfind (c : ascii) (p : string) : Z := rfind_from c p 0 (-1).

Definition char_at (p : string) (i : Z) : option ascii :=
  String.get (Z.to_nat i) p.

(** The [while filenameIndex < dotIndex] scan: is some character of
    [p[filenameIndex:dotIndex]] not a dot? *)
Fixpoint has_non_dot (p : string) (filenameIndex : Z) (n : nat) : bool :=
  match n with
  | O => false
  | S n' =>
      match char_at p filenameIndex with
      | Some a =>
          if Ascii.eqb a "."%char then has_non_dot p (filenameIndex + 1) n'
          else true
      | None => false
      end
  end.

Definition splitext (p : string) : string * string :=
  let sepIndex := rfind "/"%char p in
  let dotIndex := rfind "."%char p in
  if (sepIndex <? dotIndex)
     && has_non_dot p (sepIndex + 1) (Z.to_nat (dotIndex - (sepIndex + 1)))
  then (String.substring 0 (Z.to_nat dotIndex) p,
        String.substring (Z.to_nat dotIndex)
                         (String.length p - Z.to_nat dotIndex) p)
  else (p, EmptyString).

End OsPath.

(** The two characters of the KML template that a string literal cannot
    hold directly. *)
Definition dq : string := String (Ascii.ascii_of_nat 34) EmptyString.
Definition nl : string := String (Ascii.ascii_of_nat 10) EmptyString.

(** ** PIL images and the file system *)

Record Image : Type := mkImage {
  im_mode : string;
  im_size : Z * Z;
  im_data : list Z
}.

(** [Image.frombuffer(mode, size, data, 'raw', mode, 0, 1)]. *)
Definition frombuffer (mode : string) (sz : Z * Z) (data : list Z) : Image :=
  mkImage mode sz data.

(** What a file holds: a PNG encoding of an image (the encoder is PIL's),
    or the text written by [output.write]. *)
Inductive file_content : Type :=
| PNG (im : Image)
| Text (s : string).

(** ** The arguments marshalled to the native routine [tx] *)

(** A Python int passed to a foreign function that has no [argtypes] is
    handed over as a C [int]: its low 32 bits, read as a signed number.
    (ctypes refuses an int outside [-2^63, 2^64) with an error; that limit
    is not modelled.) *)
Definition c_int (n : Z) : Z := (n + 2 ^ 31) mod 2 ^ 32 - 2 ^ 31.

Record tx_args : Type := mkTxArgs {
  tx_points : list Q;         (* c_float array *)
  tx_cPoints : Z;             (* len(points) * 2 *)
  tx_w : Z;
  tx_h : Z;
  tx_dotsize : Z;
  tx_scheme : list Z;         (* c_int array *)
  tx_pix_color : list Z;      (* c_ubyte output buffer *)
  tx_opacity : Z;
  tx_boundsOverride : Z;
  tx_minX : Q;
  tx_minY : Q;
  tx_maxX : Q;
  tx_maxY : Q
}.

(** ** class Heatmap *)

Module Heatmap.

(** The instance attributes.  [None] is Python's [None], the value every
    attribute but [_schemes] has after [__init__]. *)
Record t : Type := mk {
  img : option Image;
  points : option (list Point);
  dotsize : option Z;
  opacity : option Z;
  size : option (Z * Z);
  area : option Area;
  override : option Z;
  _schemes : gmap string ColorScheme
}.

(** [__init__], once the shared library has been found. *)
Definition init (schemes : gmap string ColorScheme) : t :=
  mk None None None None None None None schemes.

(** [_alloc_output_buffer]: [(ctypes.c_ubyte * (width * height * bands))()],
    a zero-filled array; ctypes refuses a negative length. *)
Definition _alloc_output_buffer (width height bands : Z) : exn + list Z :=
  let n := width * height * bands in
  if n <? 0 then inl (ValueError_ArrayLength n)
  else inr (repeat 0 (Z.to_nat n)).

(** [_convert_scheme]: the loop over [scheme], with [flat] as accumulator. *)
Fixpoint _convert_scheme_loop (scheme : ColorScheme) (flat : list Z)
  : exn + list Z :=
  match scheme with
  | [] => inr flat
  | rgb :: rest =>
      match rgb with
      | [] => inl ValueError_MinEmpty
      | c :: cs =>
          if (tuple_min c cs <? 0) || (255 <? tuple_max c cs)
             || negb (Nat.eqb (length rgb) 3)
          then inl (TypeError_InvalidRGB rgb)
          else _convert_scheme_loop rest (flat ++ rgb)
      end
  end.

Definition _convert_scheme (scheme : ColorScheme) : exn + list Z :=
  _convert_scheme_loop scheme [].

(** [_create_bbox]. *)
Definition _create_bbox_step (acc : Area) (p : Point) : Area :=
  let '((min_x, min_y), (max_x, max_y)) := acc in
  let '(x, y) := p in
  ((py_min x min_x, py_min y min_y), (py_max x max_x, py_max y max_y)).

Definition _create_bbox (points : option (list Point)) : exn + Area :=
  match points with
  | None => inl TypeError_NoneSubscript
  | Some [] => inl IndexError_ListIndex
  | Some (p0 :: rest) =>
      (* min_x, min_y = points[0][0], points[0][1]; the loop then visits
         every point, the first one included *)
      let '(x0, y0) := p0 in
      inr (fold_left _create_bbox_step (p0 :: rest) ((x0, y0), (x0, y0)))
  end.

(** Truth value of [self.override] ([None] and [0] are false). *)
Definition truthy (o : option Z) : bool :=
  match o with
  | None => false
  | Some n => negb (n =? 0)
  end.

(** [get_bounds]. *)
Definition get_bounds (self : t) : exn + Area :=
  if truthy (override self) then
    match area self with
    | Some a => inr a
    | None => inl TypeError_NoneSubscript
    end
  else _create_bbox (points self).

(** [get_scheme_names]: the keys of the registry. *)
Definition get_scheme_names (self : t) : list string :=
  (map_to_list (_schemes self)).*1.

Section Native.

(** [ctypes.c_float(v)]: rounding to single precision. *)
Variable c_float : Q -> Q.

(** The native routine [tx]: its return value as an integer and the
    contents of the output buffer after the call. *)
Variable tx : tx_args -> Z * list Z.

(** [_convert_points]: flatten, then build the [c_float] array. *)
Definition _convert_points (points : list Point) : list Q :=
  List.map c_float (flat_map (fun p : Point => [fst p; snd p]) points).

(** [heatmap].  The result pairs the instance after the call with the
    exception raised or the image returned. *)
Definition heatmap (self : t) (points : list Point) (dotsize opacity : Z)
    (size : Z * Z) (scheme : string) (area : option Area)
  : t * (exn + Image) :=
  (* Store image output args. *)
  let self_area : Area :=
    match area with None => ((0, 0), (0, 0))%Q | Some a => a end in
  let self_override : Z :=
    match area with None => 0 | Some _ => 1 end in
  let self :=
    mk (img self) (Some points) (Some dotsize) (Some opacity) (Some size)
       (Some self_area) (Some self_override) (_schemes self) in
  match _schemes self !! scheme with
  | None => (self, inl (ValueError_UnknownScheme scheme))
  | Some table =>
      let arr_points := _convert_points points in
      match _convert_scheme table with
      | inl e => (self, inl e)
      | inr arr_scheme =>
          match _alloc_output_buffer (fst size) (snd size) 4 with
          | inl e => (self, inl e)
          | inr buf =>
              let '(ret, arr_final_image) :=
                tx (mkTxArgs arr_points
                      (c_int (Z.of_nat (length points) * 2))
                      (c_int (fst size)) (c_int (snd size)) (c_int dotsize)
                      arr_scheme buf
                      (c_int opacity) (c_int self_override)
                      (c_float (fst (fst self_area)))
                      (c_float (snd (fst self_area)))
                      (c_float (fst (snd self_area)))
                      (c_float (snd (snd self_area)))) in
              if ret =? 0 then (self, inl Exception_Processing)
              else
                let im := frombuffer "RGBA" size arr_final_image in
                (mk (Some im) (Some points) (Some dotsize) (Some opacity)
                    (Some size) (Some self_area) (Some self_override)
                    (_schemes self),
                 inr im)
          end
      end
  end.

(** [%2.16f] applied to a number. *)
Variable fmt_f : Q -> string.

(** [_KML_TPL % (href, north, south, east, west)]: the template's five
    slots in the order they occur in the text.  [dq] is the double
    quote and [nl] the line feed. *)
Definition _KML_TPL (href north south east west : string) : string :=
  String.concat EmptyString
    [ "<?xml version="; dq; "1.0"; dq; " encoding="; dq; "UTF-8"; dq;
      "?>"; nl;
      "<kml xmlns="; dq; "http://www.opengis.net/kml/2.2"; dq; ">"; nl;
      "  <Folder>"; nl;
      "    <GroundOverlay>"; nl;
      "      <Icon>"; nl;
      "        <href>"; href; "</href>"; nl;
      "      </Icon>"; nl;
      "      <LatLonBox>"; nl;
      "        <north>"; north; "</north>"; nl;
      "        <south>"; south; "</south>"; nl;
      "        <east>"; east; "</east>"; nl;
      "        <west>"; west; "</west>"; nl;
      "        <rotation>0</rotation>"; nl;
      "      </LatLonBox>"; nl;
      "    </GroundOverlay>"; nl;
      "  </Folder>"; nl;
      "</kml>" ].

(** [save_kml], over the file system [fs]. *)
Definition save_kml (self : t) (fs : gmap string file_content)
    (kml_file : string) : gmap string file_content * (exn + unit) :=
  match img self with
  | None => (fs, inl Exception_NoImage)
  | Some im =>
      let raster_path := (fst (OsPath.splitext kml_file) ++ ".png")%string in
      let fs := <[raster_path := PNG im]> fs in
      match get_bounds self with
      | inl e => (fs, inl e)
      | inr ((east, south), (west, north)) =>
          (<[kml_file :=
               Text (_KML_TPL raster_path (fmt_f north) (fmt_f south)
                              (fmt_f east) (fmt_f west))]> fs,
           inr tt)
      end
  end.

End Native.

End Heatmap.

(** ** Heatmap.__init__: finding the shared library

    The constructor depends on the process environment: the platform
    strings, [sys.path], the file system and the dynamic loader.  These are
    the variables of the section below; [os.path.join] is one of them too,
    since its separator is the platform's. *)

Module Loader.

(** [str.lower] on ASCII letters. *)
Definition lower_ascii (a : ascii) : ascii :=
  let n := nat_of_ascii a in
  if Nat.leb 65 n && Nat.leb n 90 then ascii_of_nat (n + 32) else a.

Fixpoint lower (s : string) : string :=
  match s with
  | EmptyString => EmptyString
  | String a s' => String (lower_ascii a) (lower s')
  end.

(** [needle in hay] on strings: [needle] occurs as a substring. *)
Fixpoint contains (needle hay : string) : bool :=
  String.prefix needle hay
  || match hay with
     | EmptyString => false
     | String _ hay' => contains needle hay'
     end.

(** The handle [ctypes.cdll.LoadLibrary] returns, identified by the path it
    was loaded from; such an object is always true in a condition. *)
Definition Lib : Type := string.

(** What the constructor raises. *)
Inductive init_exn : Type :=
| OSError_LoadLibrary (path : string)
    (* raised by [ctypes.cdll.LoadLibrary] *)
| Exception_NotFound.
    (* [Exception("Heatmap shared library not found in PYTHONPATH.")] *)

Section Environment.

Variable system : string.                 (* platform.system() *)
Variable architecture0 : string.          (* platform.architecture()[0] *)
Variable sys_path : list string.          (* sys.path *)
Variable isfile : string -> bool.         (* os.path.isfile *)
Variable join : string -> string -> string.   (* os.path.join *)
Variable LoadLibrary : string -> option Lib.  (* None: OSError *)

(** The library name "based on platform and arch". *)
Definition libname : string :=
  let libname := "cHeatmap.so" in
  let libname :=
    if contains "cygwin" (lower system) then "cHeatmap.dll" else libname in
  if contains "windows" (lower system) then
    if contains "64" architecture0 then "cHeatmap-x64.dll"
    else "cHeatmap-x86.dll"
  else libname.

(** The [for d in sys.path] loop, with [self._heatmap] as accumulator: the
    loop has no [break], every directory is visited. *)
Fixpoint search (dirs : list string) (_heatmap : option Lib)
  : init_exn + option Lib :=
  match dirs with
  | [] => inr _heatmap
  | d :: rest =>
      if isfile (join d libname) then
        match LoadLibrary (join d libname) with
        | None => inl (OSError_LoadLibrary (join d libname))
        | Some lib => search rest (Some lib)
        end
      else search rest _heatmap
  end.

(** Truth value of the [libpath] argument: [None] and the empty string are
    false. *)
Definition given (libpath : option string) : option string :=
  match libpath with
  | Some EmptyString => None
  | other => other
  end.

(** [__init__]: the library handle and the fresh instance, or the exception
    raised. *)
Definition __init__ (libpath : option string)
    (schemes : gmap string ColorScheme) : init_exn + (Lib * Heatmap.t) :=
  let self := Heatmap.init schemes in
  let loaded :=
    match given libpath with
    | Some p =>
        match LoadLibrary p with
        | None => inl (OSError_LoadLibrary p)
        | Some lib => inr (Some lib)
        end
    | None => search sys_path None
    end in
  match loaded with
  | inl e => inl e
  | inr None => inl Exception_NotFound
  | inr (Some lib) => inr (lib, self)
  end.

End Environment.

End Loader.

(** ** The rendering kernel

    The shared library [cHeatmap] that [Heatmap.__init__] loads is not
    among the sources: only its call site in [Heatmap.heatmap] is.  The
    definitions of this module follow the rendering engine as the
    specification describes it (sections 3, 4 and 6), behind the interface
    of that call: thirteen marshalled arguments, an integer result that is
    zero on failure, and the output buffer filled in place. *)

Module Kernel.

Local Open Scope Z_scope.

(** Modelled from the spec: the native routine's view of its [points]
    argument, a flat array [x0, y0, x1, y1, ...] read back as points. *)
Fixpoint unflatten (flat : list Q) : list Point :=
  match flat with
  | x :: y :: rest => (x, y) :: unflatten rest
  | _ => []
  end.

(** Modelled from the spec: the point set the native routine works on,
    the first [cPoints] floats of the array it is handed. *)
Definition points_of (a : tx_args) : list Point :=
  unflatten (take (Z.to_nat (tx_cPoints a)) (tx_points a)).

(** *** CoordinateProjector *)

(** Modelled from the spec: the auto-derive path of the native projector,
    "bottom_left = (min x, min y) over all points; top_right = (max x,
    max y)", failing on an empty point set. *)
Definition derive_area (pts : list Point) : option Area :=
  match pts with
  | [] => None
  | (x0, y0) :: rest =>
      Some (fold_left
              (fun (acc : Area) (p : Point) =>
                 ((Qmin (fst (fst acc)) (fst p), Qmin (snd (fst acc)) (snd p)),
                  (Qmax (fst (snd acc)) (fst p), Qmax (snd (snd acc)) (snd p))))
              rest ((x0, y0), (x0, y0)))
  end.

(** Modelled from the spec: the native projector's handling of an Area
    whose corners are out of order, "corrected by taking per-axis min and
    max". *)
Definition normalize (a : Area) : Area :=
  let '((x0, y0), (x1, y1)) := a in
  ((Qmin x0 x1, Qmin y0 y1), (Qmax x0 x1, Qmax y0 y1)).

(** Modelled from the spec: the native projection of a point to a pixel
    (col, row): x linearly from [bottom_left.x, top_right.x] to columns
    from 0 to width, y linearly from [bottom_left.y, top_right.y] to rows
    from height down to 0, a degenerate axis to the midpoint.  Rounding
    down to an integer is this model's choice. *)
Definition project (w h : Z) (a : Area) (p : Point) : Z * Z :=
  let '((x0, y0), (x1, y1)) := a in
  let '(x, y) := p in
  (if Qeq_bool x0 x1 then w / 2
   else Qfloor ((x - x0) * inject_Z w / (x1 - x0))%Q,
   if Qeq_bool y0 y1 then h / 2
   else Qfloor (inject_Z h - (y - y0) * inject_Z h / (y1 - y0))%Q).

(** *** DotStamp *)

(** Modelled from the spec: the native stamp's weight at kernel cell
    (i, j) of a [d]x[d] kernel, the recommended curve "proportional to
    (1 - distance/radius) clamped at 0" scaled to [0, 255].  [dx], [dy]
    are twice the offsets from the kernel's centre and [d] is twice the
    radius, so the quotient distance/radius is [sqrt (dx^2 + dy^2) / d]. *)
Definition falloff (d i j : Z) : Z :=
  let dx := 2 * i - (d - 1) in
  let dy := 2 * j - (d - 1) in
  Z.max 0 (255 - Z.sqrt (255 * 255 * (dx * dx + dy * dy)) / d).

Definition range (n : Z) : list Z := List.map Z.of_nat (seq 0 (Z.to_nat n)).

(** Modelled from the spec: the native DotStamp, "a precomputed square
    kernel of side dotsize", as the list of its cells (i, j, weight) in
    row-major order. *)
Definition DotStamp (d : Z) : list (Z * Z * Z) :=
  flat_map (fun j => List.map (fun i => (i, j, falloff d i j)) (range d))
           (range d).

(** *** AccumulationBuffer *)

(** Modelled from the spec: the native accumulation grid, "a
    zero-initialized width x height grid of saturating 8-bit counters",
    row-major. *)
Definition zero_buffer (w h : Z) : list Z := repeat 0 (Z.to_nat (w * h)).

(** Modelled from the spec: the native clamp-on-add, "add the kernel
    weight to the existing counter, clamping the result at 255". *)
Definition sat_add (v wt : Z) : Z := Z.min 255 (v + wt).

(** Modelled from the spec: one cell write of the native stamping loop.
    A target outside [0,width) x [0,height) is "silently skipped". *)
Definition write (w h : Z) (cells : list Z) (wr : Z * Z * Z) : list Z :=
  let '(col, row, wt) := wr in
  if (0 <=? col) && (col <? w) && (0 <=? row) && (row <? h) then
    let k := Z.to_nat (row * w + col) in
    match cells !! k with
    | Some v => <[k := sat_add v wt]> cells
    | None => cells
    end
  else cells.

(** Modelled from the spec: the cell writes of the native
    [stamp(center, kernel)], the kernel centred on the pixel. *)
Definition stamp_writes (d : Z) (center : Z * Z) : list (Z * Z * Z) :=
  List.map (fun c : Z * Z * Z =>
              let '(i, j, wt) := c in
              (fst center - d / 2 + i, snd center - d / 2 + j, wt))
           (DotStamp d).

Definition stamp (w h d : Z) (cells : list Z) (center : Z * Z) : list Z :=
  fold_left (write w h) (stamp_writes d center) cells.

(** Modelled from the spec: the native stamping pass, "invoked once per
    input point", as the sequence of all its cell writes. *)
Definition stamping_writes (d : Z) (centers : list (Z * Z))
  : list (Z * Z * Z) :=
  flat_map (stamp_writes d) centers.

Definition accumulate (w h d : Z) (centers : list (Z * Z)) : list Z :=
  fold_left (stamp w h d) centers (zero_buffer w h).

(** *** Colorizer *)

(** Modelled from the spec: the native alpha mapping, "alpha = v *
    opacity / 255, rounded, clamped to [0,255]". *)
Definition alpha (v opacity : Z) : Z :=
  Z.max 0 (Z.min 255 ((2 * v * opacity + 255) / 510)).

(** Modelled from the spec: the native colouring of one cell.  The scheme
    arrives as a bare array of 3 * n integers without its length, so an
    entry is read by index and nothing about the table is validated. *)
Definition colorize_cell (scheme : list Z) (opacity v : Z) : list Z :=
  if v =? 0 then [0; 0; 0; 0]
  else [ nth (Z.to_nat (3 * v)) scheme 0;
         nth (Z.to_nat (3 * v + 1)) scheme 0;
         nth (Z.to_nat (3 * v + 2)) scheme 0;
         alpha v opacity ].

Definition colorize (scheme : list Z) (opacity : Z) (cells : list Z)
  : list Z :=
  flat_map (colorize_cell scheme opacity) cells.

(** *** The routine *)

(** Modelled from the spec: the Area the native routine projects with:
    the supplied one when [boundsOverride] is set, else the one derived
    from the points. *)
Definition effective_area (a : tx_args) : option Area :=
  if tx_boundsOverride a =? 0 then derive_area (points_of a)
  else Some (normalize ((tx_minX a, tx_minY a), (tx_maxX a, tx_maxY a))).

(** Modelled from the spec: the native routine [tx] of cHeatmap.  It
    fails (result 0, buffer untouched) when "DotSize < 1, or width/height
    <= 0" and on an "empty point set with auto-derived Area"; otherwise
    it stamps every projected point and colours the grid into the
    buffer. *)
Definition tx (a : tx_args) : Z * list Z :=
  if (tx_dotsize a <? 1) || (tx_w a <=? 0) || (tx_h a <=? 0)
  then (0, tx_pix_color a)
  else
    match effective_area a with
    | None => (0, tx_pix_color a)
    | Some ar =>
        let centers :=
          List.map (project (tx_w a) (tx_h a) ar) (points_of a) in
        (1, colorize (tx_scheme a) (tx_opacity a)
              (accumulate (tx_w a) (tx_h a) (tx_dotsize a) centers))
    end.

End Kernel.

(** ** Concrete inputs used in the examples below *)

(** A 256-entry grey ramp, and the same table cut to 255 entries. *)
Definition grey_ramp (n : nat) : ColorScheme :=
  List.map (fun k => let c := Z.of_nat k in [c; c; c]) (seq 0 n).

Definition demo_schemes : gmap string ColorScheme :=
  <["short" := grey_ramp 255]> (<["classic" := grey_ramp 256]> ∅).

Definition demo : Heatmap.t := Heatmap.init demo_schemes.

(** Single-precision rounding is the identity on the small integers the
    examples use. *)
Definition c_float_id (q : Q) : Q := q.

Definition render := Heatmap.heatmap c_float_id Kernel.tx.

(** * Properties *)

(** ** Scheme names *)

(** [scheme not in self.get_scheme_names()] is the failure of the registry
    lookup that [heatmap] branches on. *)
Lemma get_scheme_names_lookup (self : Heatmap.t) (scheme : string) :
  scheme ∈ Heatmap.get_scheme_names self ↔
  is_Some (Heatmap._schemes self !! scheme).
Proof.
  unfold Heatmap.get_scheme_names. rewrite list_elem_of_fmap. split.
  - intros [[k v] [-> Hin]]. apply elem_of_map_to_list in Hin. eauto.
  - intros [v Hv]. exists (scheme, v). split; [done|].
    by apply elem_of_map_to_list.
Qed.

(** ** Colour-scheme validation *)

(** An entry the validation accepts: a 3-tuple of channels in [0, 255]. *)
Definition well_formed_rgb (rgb : RGB) : Prop :=
  length rgb = 3%nat ∧ Forall (fun c => 0 <= c <= 255) rgb.

Definition well_formed_rgbb (rgb : RGB) : bool :=
  Nat.eqb (length rgb) 3 && forallb (fun c => (0 <=? c) && (c <=? 255)) rgb.

Lemma well_formed_rgbb_spec (rgb : RGB) :
  well_formed_rgbb rgb = true ↔ well_formed_rgb rgb.
Proof.
  unfold well_formed_rgbb, well_formed_rgb.
  rewrite andb_true_iff, Nat.eqb_eq, forallb_forall, List.Forall_forall.
  split; intros [Hl Hc]; (split; [exact Hl|]); intros c Hin;
    specialize (Hc c Hin); lia.
Qed.

Lemma tuple_min_nonneg (cs : list Z) (c : Z) :
  0 <= tuple_min c cs ↔ Forall (fun x => 0 <= x) (c :: cs).
Proof.
  unfold tuple_min. revert c.
  induction cs as [|d cs IH]; intros c; simpl.
  - split; [intros H; repeat constructor; exact H | by inversion 1].
  - rewrite IH. split.
    + intros H. inversion H as [|? ? Hm Hcs]; subst.
      repeat constructor; [lia | lia | exact Hcs].
    + intros H. inversion H as [|? ? Hc Hr]; subst.
      inversion Hr as [|? ? Hd Hcs]; subst. constructor; [lia | exact Hcs].
Qed.

Lemma tuple_max_byte (cs : list Z) (c : Z) :
  tuple_max c cs <= 255 ↔ Forall (fun x => x <= 255) (c :: cs).
Proof.
  unfold tuple_max. revert c.
  induction cs as [|d cs IH]; intros c; simpl.
  - split; [intros H; repeat constructor; exact H | by inversion 1].
  - rewrite IH. split.
    + intros H. inversion H as [|? ? Hm Hcs]; subst.
      repeat constructor; [lia | lia | exact Hcs].
    + intros H. inversion H as [|? ? Hc Hr]; subst.
      inversion Hr as [|? ? Hd Hcs]; subst. constructor; [lia | exact Hcs].
Qed.

(** The guard of the loop body is the negation of [well_formed_rgb]. *)
Lemma rgb_guard (c : Z) (cs : list Z) :
  (tuple_min c cs <? 0) || (255 <? tuple_max c cs)
    || negb (Nat.eqb (length (c :: cs)) 3) = false
  ↔ well_formed_rgb (c :: cs).
Proof.
  rewrite !orb_false_iff, negb_false_iff, Nat.eqb_eq, Z.ltb_ge, Z.ltb_ge.
  rewrite tuple_min_nonneg, tuple_max_byte. unfold well_formed_rgb.
  rewrite !List.Forall_forall. split.
  - intros [[Hlo Hhi] Hlen]. split; [exact Hlen|].
    intros x Hx. specialize (Hlo x Hx). specialize (Hhi x Hx). lia.
  - intros [Hlen Hc]. repeat split; try exact Hlen;
      intros x Hx; specialize (Hc x Hx); lia.
Qed.

Lemma convert_scheme_loop_ok (scheme : ColorScheme) (flat : list Z) :
  Forall well_formed_rgb scheme →
  Heatmap._convert_scheme_loop scheme flat = inr (flat ++ concat scheme).
Proof.
  revert flat.
  induction scheme as [|rgb rest IH]; intros flat Hwf;
    cbn [Heatmap._convert_scheme_loop concat].
  - by rewrite app_nil_r.
  - inversion Hwf as [|? ? Hrgb Hrest]; subst.
    destruct rgb as [|c cs]; [destruct Hrgb as [Hlen _]; discriminate|].
    apply rgb_guard in Hrgb. rewrite Hrgb.
    rewrite IH by exact Hrest. by rewrite <- app_assoc.
Qed.

Lemma convert_scheme_loop_bad (scheme : ColorScheme) (flat : list Z) :
  ¬ Forall well_formed_rgb scheme →
  ∃ e, Heatmap._convert_scheme_loop scheme flat = inl e
       ∧ ((∃ rgb, e = TypeError_InvalidRGB rgb ∧ rgb ∈ scheme
                  ∧ ¬ well_formed_rgb rgb)
          ∨ (e = ValueError_MinEmpty ∧ [] ∈ scheme)).
Proof.
  revert flat.
  induction scheme as [|rgb rest IH]; intros flat Hbad;
    cbn [Heatmap._convert_scheme_loop].
  - exfalso. apply Hbad. constructor.
  - destruct rgb as [|c cs].
    + eexists. split; [reflexivity|]. right. split; [done|]. constructor.
    + destruct ((tuple_min c cs <? 0) || (255 <? tuple_max c cs)
                || negb (Nat.eqb (length (c :: cs)) 3)) eqn:Hg.
      * eexists. split; [reflexivity|]. left. exists (c :: cs).
        split; [done|]. split; [constructor|].
        intros Hwf. apply rgb_guard in Hwf. congruence.
      * apply rgb_guard in Hg.
        destruct (IH (flat ++ c :: cs)) as [e [He Hkind]].
        { intros Hrest. apply Hbad. by constructor. }
        exists e. split; [exact He|].
        destruct Hkind as [[rgb [-> [Hin Hnwf]]]|[-> Hin]].
        -- left. exists rgb. repeat split; [by constructor | exact Hnwf].
        -- right. split; [done | by constructor].
Qed.

Lemma forallb_well_formed (scheme : ColorScheme) :
  forallb well_formed_rgbb scheme = true → Forall well_formed_rgb scheme.
Proof.
  rewrite forallb_forall, List.Forall_forall.
  intros H rgb Hin. apply well_formed_rgbb_spec, H, Hin.
Qed.

Lemma forallb_not_well_formed (scheme : ColorScheme) :
  forallb well_formed_rgbb scheme = false → ¬ Forall well_formed_rgb scheme.
Proof.
  intros Hb Hwf. rewrite List.Forall_forall in Hwf.
  assert (forallb well_formed_rgbb scheme = true) as Ht; [|congruence].
  apply forallb_forall. intros rgb Hin. apply well_formed_rgbb_spec, Hwf, Hin.
Qed.

(** What [heatmap] returns when the scheme conversion raises: the kernel and
    the buffer allocation play no part. *)
Lemma heatmap_scheme_error (c_float : Q → Q) (tx : tx_args → Z * list Z)
    (self : Heatmap.t) (pts : list Point) (d o : Z) (sz : Z * Z)
    (name : string) (ar : option Area) (table : ColorScheme) (e : exn) :
  Heatmap._schemes self !! name = Some table →
  Heatmap._convert_scheme table = inl e →
  snd (Heatmap.heatmap c_float tx self pts d o sz name ar) = inl e.
Proof.
  intros Hname Hconv. unfold Heatmap.heatmap.
  cbn [Heatmap._schemes]. rewrite Hname, Hconv. reflexivity.
Qed.

(** C1, as amended.  A table whose entries are all 3-tuples of channels in
    [0, 255] passes [_convert_scheme], whatever its length: the number of
    entries is not looked at.  For a table with no empty entry,
    [_convert_scheme] raises if and only if some entry is not a 3-tuple or
    has a channel outside [0, 255], and the exception is the [TypeError] of
    the explicit [raise], carrying such an entry.  When the conversion
    raises, [heatmap] raises the same exception whatever the kernel and the
    requested size are, that is before the output buffer is allocated and
    before the kernel is called. *)
Theorem convert_scheme_validation :
  ∀ scheme : ColorScheme,
    (Forall well_formed_rgb scheme →
     Heatmap._convert_scheme scheme = inr (concat scheme))
    ∧ (Forall (fun rgb : RGB => rgb ≠ []) scheme →
       ((∃ e, Heatmap._convert_scheme scheme = inl e)
          ↔ ¬ Forall well_formed_rgb scheme)
       ∧ ∀ e, Heatmap._convert_scheme scheme = inl e →
              class_of e = TypeError
              ∧ ∃ rgb, e = TypeError_InvalidRGB rgb ∧ rgb ∈ scheme
                       ∧ ¬ well_formed_rgb rgb)
    ∧ (∀ c_float tx self pts d o sz name ar e,
         Heatmap._schemes self !! name = Some scheme →
         Heatmap._convert_scheme scheme = inl e →
         snd (Heatmap.heatmap c_float tx self pts d o sz name ar) = inl e).
Proof.
  intros scheme. unfold Heatmap._convert_scheme.
  assert (Hok : Forall well_formed_rgb scheme →
                Heatmap._convert_scheme_loop scheme [] = inr (concat scheme)).
  { intros Hwf. by rewrite convert_scheme_loop_ok. }
  split; [exact Hok|]. split.
  - intros Hne. split; [split|].
    + intros [e He] Hwf. rewrite (Hok Hwf) in He. discriminate.
    + intros Hbad.
      destruct (convert_scheme_loop_bad scheme [] Hbad) as [e [He _]]. eauto.
    + intros e He.
      destruct (forallb well_formed_rgbb scheme) eqn:Hb;
        [pose proof (forallb_well_formed scheme Hb) as Hwf
        |pose proof (forallb_not_well_formed scheme Hb) as Hbad].
      * rewrite (Hok Hwf) in He. discriminate.
      * destruct (convert_scheme_loop_bad scheme [] Hbad)
          as [e' [He' Hkind]].
        rewrite He in He'. injection He' as <-.
        destruct Hkind as [(rgb & -> & Hin & Hnwf)|[_ Hin]].
        -- split; [reflexivity|]. by exists rgb.
        -- exfalso. rewrite List.Forall_forall in Hne.
           apply (Hne [] (proj1 (list_elem_of_In _ _) Hin)). reflexivity.
  - intros c_float tx self pts d o sz name ar e Hname Hconv.
    by apply heatmap_scheme_error with (table := scheme).
Qed.

Lemma convert_scheme_validation_witness :
  Heatmap._convert_scheme (grey_ramp 256) = inr (concat (grey_ramp 256))
  ∧ ∃ e, Heatmap._convert_scheme [[0; 0; 0]; [1; 2]; [7; 8; 9]] = inl e.
Proof.
  split.
  - apply (proj1 (convert_scheme_validation (grey_ramp 256))).
    apply forallb_well_formed. vm_compute. reflexivity.
  - apply (proj1 (proj2 (convert_scheme_validation
                           [[0; 0; 0]; [1; 2]; [7; 8; 9]]))).
    + repeat constructor; discriminate.
    + intros Hwf. inversion Hwf as [|? ? _ Hrest]; subst.
      inversion Hrest as [|? ? [Hlen _] _]; subst. discriminate Hlen.
Defined.

(** C1, as stated, fails: a table of 255 well-formed entries passes the
    validation, and the render that uses it returns an image. *)
Lemma short_scheme_passes_validation :
  length (grey_ramp 255) = 255%nat
  ∧ Heatmap._convert_scheme (grey_ramp 255) = inr (concat (grey_ramp 255))
  ∧ ∃ im, snd (render demo [(0, 0); (10, 10)]%Q 3 255 (4, 4) "short" None)
          = inr im.
Proof.
  split; [reflexivity|]. split; [vm_compute; reflexivity|].
  eexists. vm_compute. reflexivity.
Qed.

(** ** The bounding box *)

Definition is_min (f : Point → Q) (pts : list Point) (m : Q) : Prop :=
  (∃ p, p ∈ pts ∧ f p = m) ∧ ∀ p, p ∈ pts → (m <= f p)%Q.

Definition is_max (f : Point → Q) (pts : list Point) (m : Q) : Prop :=
  (∃ p, p ∈ pts ∧ f p = m) ∧ ∀ p, p ∈ pts → (f p <= m)%Q.

(** [((min x, min y), (max x, max y))] over all points of [pts]. *)
Definition is_bbox (pts : list Point) (a : Area) : Prop :=
  is_min fst pts (fst (fst a)) ∧ is_min snd pts (snd (fst a))
  ∧ is_max fst pts (fst (snd a)) ∧ is_max snd pts (snd (snd a)).

Lemma py_min_cases (a b : Q) :
  (py_min a b = a ∧ (a <= b)%Q) ∨ (py_min a b = b ∧ (b <= a)%Q).
Proof.
  unfold py_min. destruct (Qle_bool a b) eqn:E.
  - left. split; [reflexivity|]. by apply Qle_bool_iff.
  - right. split; [reflexivity|]. apply Qlt_le_weak, Qnot_le_lt.
    intros H. apply Qle_bool_iff in H. congruence.
Qed.

Lemma py_max_cases (a b : Q) :
  (py_max a b = a ∧ (b <= a)%Q) ∨ (py_max a b = b ∧ (a <= b)%Q).
Proof.
  unfold py_max. destruct (Qle_bool b a) eqn:E.
  - left. split; [reflexivity|]. by apply Qle_bool_iff.
  - right. split; [reflexivity|]. apply Qlt_le_weak, Qnot_le_lt.
    intros H. apply Qle_bool_iff in H. congruence.
Qed.

Lemma is_min_snoc (f : Point → Q) (seen : list Point) (m : Q) (p : Point) :
  is_min f seen m → is_min f (seen ++ [p]) (py_min (f p) m).
Proof.
  intros [[q [Hq Hfq]] Hle].
  destruct (py_min_cases (f p) m) as [[-> Hpm]|[-> Hmp]]; split.
  - exists p. split; [|reflexivity]. apply elem_of_app. right. constructor.
  - intros r Hr. apply elem_of_app in Hr as [Hr|Hr].
    + eapply Qle_trans; [exact Hpm | by apply Hle].
    + apply list_elem_of_singleton in Hr as ->. apply Qle_refl.
  - exists q. split; [|exact Hfq]. apply elem_of_app. by left.
  - intros r Hr. apply elem_of_app in Hr as [Hr|Hr].
    + by apply Hle.
    + apply list_elem_of_singleton in Hr as ->. exact Hmp.
Qed.

Lemma is_max_snoc (f : Point → Q) (seen : list Point) (m : Q) (p : Point) :
  is_max f seen m → is_max f (seen ++ [p]) (py_max (f p) m).
Proof.
  intros [[q [Hq Hfq]] Hle].
  destruct (py_max_cases (f p) m) as [[-> Hpm]|[-> Hmp]]; split.
  - exists p. split; [|reflexivity]. apply elem_of_app. right. constructor.
  - intros r Hr. apply elem_of_app in Hr as [Hr|Hr].
    + eapply Qle_trans; [by apply Hle | exact Hpm].
    + apply list_elem_of_singleton in Hr as ->. apply Qle_refl.
  - exists q. split; [|exact Hfq]. apply elem_of_app. by left.
  - intros r Hr. apply elem_of_app in Hr as [Hr|Hr].
    + by apply Hle.
    + apply list_elem_of_singleton in Hr as ->. exact Hmp.
Qed.

Lemma create_bbox_step_inv (seen : list Point) (acc : Area) (p : Point) :
  is_bbox seen acc → is_bbox (seen ++ [p]) (Heatmap._create_bbox_step acc p).
Proof.
  destruct acc as [[min_x min_y] [max_x max_y]], p as [x y].
  intros (Hx & Hy & HX & HY). unfold is_bbox. cbn.
  repeat split.
  - apply (is_min_snoc fst seen min_x (x, y) Hx).
  - apply (is_min_snoc fst seen min_x (x, y) Hx).
  - apply (is_min_snoc snd seen min_y (x, y) Hy).
  - apply (is_min_snoc snd seen min_y (x, y) Hy).
  - apply (is_max_snoc fst seen max_x (x, y) HX).
  - apply (is_max_snoc fst seen max_x (x, y) HX).
  - apply (is_max_snoc snd seen max_y (x, y) HY).
  - apply (is_max_snoc snd seen max_y (x, y) HY).
Qed.

Lemma create_bbox_fold_inv (pts seen : list Point) (acc : Area) :
  is_bbox seen acc →
  is_bbox (seen ++ pts) (fold_left Heatmap._create_bbox_step pts acc).
Proof.
  revert seen acc. induction pts as [|p pts IH]; intros seen acc Hinv; simpl.
  - by rewrite app_nil_r.
  - replace (seen ++ p :: pts) with ((seen ++ [p]) ++ pts)
      by (by rewrite <- app_assoc).
    apply IH. by apply create_bbox_step_inv.
Qed.

(** [is_bbox] only looks at which points are in the list. *)
Lemma is_bbox_same_points (l l' : list Point) (a : Area) :
  (∀ p, p ∈ l ↔ p ∈ l') → is_bbox l a → is_bbox l' a.
Proof.
  intros Hsame. unfold is_bbox, is_min, is_max.
  intros ([[p1 [H1 E1]] L1] & [[p2 [H2 E2]] L2]
          & [[p3 [H3 E3]] L3] & [[p4 [H4 E4]] L4]).
  repeat split;
    try (intros r Hr; apply Hsame in Hr; auto);
    [exists p1 | exists p2 | exists p3 | exists p4];
    (split; [by apply Hsame | assumption]).
Qed.

(** [_create_bbox] on a non-empty list: the bounding box of its points. *)
Lemma create_bbox_spec (p0 : Point) (rest : list Point) :
  ∃ b, Heatmap._create_bbox (Some (p0 :: rest)) = inr b
       ∧ is_bbox (p0 :: rest) b.
Proof.
  destruct p0 as [x0 y0].
  exists (fold_left Heatmap._create_bbox_step ((x0, y0) :: rest)
            ((x0, y0), (x0, y0))).
  split; [reflexivity|].
  apply (is_bbox_same_points ([(x0, y0)] ++ (x0, y0) :: rest)).
  - intros p. split; intros Hp.
    + apply elem_of_app in Hp as [Hp|Hp]; [|exact Hp].
      apply list_elem_of_singleton in Hp as ->. constructor.
    + apply elem_of_app. by right.
  - apply create_bbox_fold_inv. unfold is_bbox, is_min, is_max. cbn.
    repeat split;
      try (intros r Hr; apply list_elem_of_singleton in Hr as ->;
           apply Qle_refl);
      exists (x0, y0); (split; [constructor | reflexivity]).
Qed.

(** ** What a call of [heatmap] leaves in the instance *)

(** The values [heatmap] stores in [self.area] and [self.override]. *)
Definition stored_area (ar : option Area) : Area :=
  match ar with None => ((0, 0), (0, 0))%Q | Some a => a end.

Definition stored_override (ar : option Area) : Z :=
  match ar with None => 0 | Some _ => 1 end.

(** The arguments are stored whatever the outcome; the image only on
    success. *)
Lemma heatmap_state (c_float : Q → Q) (tx : tx_args → Z * list Z)
    (self : Heatmap.t) (pts : list Point) (d o : Z) (sz : Z * Z)
    (name : string) (ar : option Area) (self' : Heatmap.t) (r : exn + Image) :
  Heatmap.heatmap c_float tx self pts d o sz name ar = (self', r) →
  Heatmap.points self' = Some pts
  ∧ Heatmap.dotsize self' = Some d
  ∧ Heatmap.opacity self' = Some o
  ∧ Heatmap.size self' = Some sz
  ∧ Heatmap.area self' = Some (stored_area ar)
  ∧ Heatmap.override self' = Some (stored_override ar)
  ∧ Heatmap._schemes self' = Heatmap._schemes self
  ∧ Heatmap.img self' = match r with
                        | inl _ => Heatmap.img self
                        | inr im => Some im
                        end.
Proof.
  unfold Heatmap.heatmap. cbn [Heatmap._schemes Heatmap.img].
  destruct (Heatmap._schemes self !! name) as [table|];
    [|intros [= <- <-]; by destruct ar].
  destruct (Heatmap._convert_scheme table) as [e|arr_scheme];
    [intros [= <- <-]; by destruct ar|].
  destruct (Heatmap._alloc_output_buffer (fst sz) (snd sz) 4) as [e|buf];
    [intros [= <- <-]; by destruct ar|].
  destruct (tx _) as [ret out].
  destruct (ret =? 0); intros [= <- <-]; by destruct ar.
Qed.

(** A successful call went through the kernel, which returned non-zero on
    the marshalled arguments. *)
Lemma heatmap_success_kernel (c_float : Q → Q) (tx : tx_args → Z * list Z)
    (self : Heatmap.t) (pts : list Point) (d o : Z) (sz : Z * Z)
    (name : string) (ar : option Area) (self' : Heatmap.t) (im : Image) :
  Heatmap.heatmap c_float tx self pts d o sz name ar = (self', inr im) →
  ∃ a, tx_cPoints a = c_int (Z.of_nat (length pts) * 2)
       ∧ tx_boundsOverride a = stored_override ar
       ∧ tx_w a = c_int (fst sz) ∧ tx_h a = c_int (snd sz)
       ∧ tx_dotsize a = c_int d
       ∧ fst (tx a) ≠ 0
       ∧ im = frombuffer "RGBA" sz (snd (tx a)).
Proof.
  unfold Heatmap.heatmap. cbn [Heatmap._schemes Heatmap.img].
  destruct (Heatmap._schemes self !! name) as [table|]; [|discriminate].
  destruct (Heatmap._convert_scheme table) as [e|arr_scheme]; [discriminate|].
  destruct (Heatmap._alloc_output_buffer (fst sz) (snd sz) 4) as [e|buf];
    [discriminate|].
  match goal with |- context [tx ?a] => set (args := a) end.
  destruct (tx args) as [ret out] eqn:Hret.
  destruct (ret =? 0) eqn:Hz; [discriminate|].
  intros [= <- <-]. exists args. rewrite Hret. cbn.
  repeat split; try reflexivity; try (by destruct ar).
  by apply Z.eqb_neq.
Qed.

(** [get_bounds] after any call of [heatmap]. *)
Lemma get_bounds_after_call (c_float : Q → Q) (tx : tx_args → Z * list Z)
    (self : Heatmap.t) (pts : list Point) (d o : Z) (sz : Z * Z)
    (name : string) (ar : option Area) (self' : Heatmap.t) (r : exn + Image) :
  Heatmap.heatmap c_float tx self pts d o sz name ar = (self', r) →
  Heatmap.get_bounds self' =
    match ar with
    | Some a => inr a
    | None => Heatmap._create_bbox (Some pts)
    end.
Proof.
  intros Hcall.
  destruct (heatmap_state _ _ _ _ _ _ _ _ _ _ _ Hcall)
    as (Hpts & _ & _ & _ & Har & Hov & _).
  unfold Heatmap.get_bounds. rewrite Hov, Har, Hpts. by destruct ar.
Qed.

(** The kernel refuses an empty point array when it has to derive the
    bounds itself. *)
Lemma kernel_refuses_empty (a : tx_args) :
  tx_cPoints a = 0 → tx_boundsOverride a = 0 → fst (Kernel.tx a) = 0.
Proof.
  intros Hc Ho. unfold Kernel.tx.
  destruct ((tx_dotsize a <? 1) || (tx_w a <=? 0) || (tx_h a <=? 0));
    [reflexivity|].
  unfold Kernel.effective_area, Kernel.points_of. rewrite Ho, Hc. reflexivity.
Qed.

(** C2.  After a successful render, [get_bounds] returns the Area the caller
    supplied, unchanged, and without one the pair ((min x, min y), (max x,
    max y)) over all input points; for the points (0,0), (10,10) that is
    ((0,0), (10,10)).  The kernel is any routine that refuses an empty point
    array when it has no bounds override. *)
Theorem get_bounds_after_render :
  ∀ (c_float : Q → Q) (tx : tx_args → Z * list Z),
    (∀ a, tx_cPoints a = 0 → tx_boundsOverride a = 0 → fst (tx a) = 0) →
    ∀ self pts d o sz name ar self' im,
      Heatmap.heatmap c_float tx self pts d o sz name ar = (self', inr im) →
      match ar with
      | Some a => Heatmap.get_bounds self' = inr a
      | None => ∃ b, Heatmap.get_bounds self' = inr b ∧ is_bbox pts b
      end
      ∧ (pts = [(0, 0); (10, 10)]%Q → ar = None →
         Heatmap.get_bounds self' = inr ((0, 0), (10, 10))%Q).
Proof.
  intros c_float tx Hk self pts d o sz name ar self' im Hcall.
  pose proof (get_bounds_after_call _ _ _ _ _ _ _ _ _ _ _ Hcall) as Hb.
  split.
  - destruct ar as [a|]; [exact Hb|].
    destruct pts as [|p0 rest].
    + exfalso.
      destruct (heatmap_success_kernel _ _ _ _ _ _ _ _ _ _ _ Hcall)
        as (a & Hc & Ho & _ & _ & _ & Hret & _).
      apply Hret, Hk; [rewrite Hc; reflexivity | exact Ho].
    + rewrite Hb. apply create_bbox_spec.
  - intros -> ->. rewrite Hb. reflexivity.
Qed.

Lemma get_bounds_after_render_witness :
  Heatmap.get_bounds
    (fst (render demo [(0, 0); (10, 10)]%Q 3 255 (4, 4) "classic" None))
  = inr ((0, 0), (10, 10))%Q.
Proof.
  destruct (render demo [(0, 0); (10, 10)]%Q 3 255 (4, 4) "classic" None)
    as [self' [e|im]] eqn:E.
  - vm_compute in E. discriminate E.
  - apply (proj2 (get_bounds_after_render c_float_id Kernel.tx
                    kernel_refuses_empty _ _ _ _ _ _ _ _ _ E));
      reflexivity.
Defined.

(** ** Failing calls *)

(** An instance that has rendered once, used as the starting point of the
    examples about later calls. *)
Definition rendered : Heatmap.t :=
  fst (render demo [(0, 0); (10, 10)]%Q 3 255 (4, 4) "classic" None).

(** C3, as stated, fails: a call that raises (here on an unknown scheme
    name) has already stored its arguments, so the bounds the instance
    reports change although no image was produced. *)
Lemma failed_render_changes_bounds :
  snd (render rendered [(5, 5)]%Q 3 255 (4, 4) "nope"
         (Some ((1, 1), (2, 2))%Q))
  = inl (ValueError_UnknownScheme "nope")
  ∧ Heatmap.get_bounds rendered = inr ((0, 0), (10, 10))%Q
  ∧ Heatmap.get_bounds
      (fst (render rendered [(5, 5)]%Q 3 255 (4, 4) "nope"
              (Some ((1, 1), (2, 2))%Q)))
    = inr ((1, 1), (2, 2))%Q
  ∧ fst (render rendered [(5, 5)]%Q 3 255 (4, 4) "nope"
           (Some ((1, 1), (2, 2))%Q)) ≠ rendered.
Proof.
  repeat split; try (vm_compute; reflexivity).
  intros Heq. apply (f_equal Heatmap.get_bounds) in Heq.
  vm_compute in Heq. discriminate Heq.
Qed.

(** C3, as amended.  A call of [heatmap] either raises, returns no image
    and leaves the stored image as it was, or returns an image, which it
    also stores: there is no partial result.  The scheme registry is never
    changed.  The arguments, however, are stored before anything is
    validated: after the call, failed or not, points, dotsize, opacity, size,
    area and override are those of the call. *)
Theorem failed_render_effects :
  ∀ (c_float : Q → Q) (tx : tx_args → Z * list Z)
    self pts d o sz name ar self' r,
    Heatmap.heatmap c_float tx self pts d o sz name ar = (self', r) →
    match r with
    | inl _ => Heatmap.img self' = Heatmap.img self
    | inr im => Heatmap.img self' = Some im
    end
    ∧ Heatmap._schemes self' = Heatmap._schemes self
    ∧ Heatmap.points self' = Some pts
    ∧ Heatmap.dotsize self' = Some d
    ∧ Heatmap.opacity self' = Some o
    ∧ Heatmap.size self' = Some sz
    ∧ Heatmap.area self' = Some (stored_area ar)
    ∧ Heatmap.override self' = Some (stored_override ar).
Proof.
  intros c_float tx self pts d o sz name ar self' r Hcall.
  destruct (heatmap_state _ _ _ _ _ _ _ _ _ _ _ Hcall)
    as (Hp & Hd & Ho & Hs & Ha & Hv & Hsch & Hi).
  repeat split; try assumption. by destruct r.
Qed.

Lemma failed_render_effects_witness :
  Heatmap.img
    (fst (render rendered [(5, 5)]%Q 3 255 (4, 4) "nope"
            (Some ((1, 1), (2, 2))%Q)))
  = Heatmap.img rendered.
Proof.
  destruct (render rendered [(5, 5)]%Q 3 255 (4, 4) "nope"
              (Some ((1, 1), (2, 2))%Q)) as [self' [e|im]] eqn:E.
  - exact (proj1 (failed_render_effects c_float_id Kernel.tx
                    _ _ _ _ _ _ _ _ _ E)).
  - vm_compute in E. discriminate E.
Defined.

(** ** Parameter validation, with the kernel of the specification *)


(** A call whose marshalled arguments the kernel refuses raises, with the
    exception of the first step that fails. *)
Lemma heatmap_refused (c_float : Q → Q) (tx : tx_args → Z * list Z)
    (self : Heatmap.t) (pts : list Point) (d o : Z) (sz : Z * Z)
    (name : string) (ar : option Area) :
  (∀ a, tx_cPoints a = c_int (Z.of_nat (length pts) * 2) →
        tx_boundsOverride a = stored_override ar →
        tx_w a = c_int (fst sz) → tx_h a = c_int (snd sz) →
        tx_dotsize a = c_int d →
        fst (tx a) = 0) →
  ∃ self' e,
    Heatmap.heatmap c_float tx self pts d o sz name ar = (self', inl e)
    ∧ Heatmap.img self' = Heatmap.img self
    ∧ (∀ table : ColorScheme,
         Heatmap._schemes self !! name = Some table →
                Forall well_formed_rgb table →
                e = Exception_Processing
                ∨ ∃ n, n < 0 ∧ e = ValueError_ArrayLength n).
Proof.
  intros Hk.
  destruct (Heatmap.heatmap c_float tx self pts d o sz name ar)
    as [self' [e|im]] eqn:Hcall.
  - exists self', e. split; [reflexivity|].
    destruct (heatmap_state _ _ _ _ _ _ _ _ _ _ _ Hcall)
      as (_ & _ & _ & _ & _ & _ & _ & Hi).
    split; [exact Hi|].
    intros table Hname Hwf. revert Hcall. unfold Heatmap.heatmap.
    cbn [Heatmap._schemes Heatmap.img]. rewrite Hname.
    unfold Heatmap._convert_scheme.
    rewrite (convert_scheme_loop_ok table [] Hwf).
    unfold Heatmap._alloc_output_buffer.
    destruct (fst sz * snd sz * 4 <? 0) eqn:Hn.
    + intros [= _ <-]. right. eexists. split; [|reflexivity].
      by apply Z.ltb_lt.
    + destruct (tx _) as [ret out]. destruct (ret =? 0).
      * intros [= _ <-]. by left.
      * discriminate.
  - exfalso.
    destruct (heatmap_success_kernel _ _ _ _ _ _ _ _ _ _ _ Hcall)
      as (a & Hc & Ho & Hw & Hh & Hd & Hret & _).
    apply Hret. by apply Hk.
Qed.

(** C4.  A render of an empty point sequence without an explicit area
    raises and returns no image; the stored image is left as it was.  When
    the scheme is registered and well formed, the exception is the
    "Unexpected error during processing." of a kernel failure, or the
    [ValueError] of a negative buffer length. *)
Theorem empty_render_fails :
  ∀ (c_float : Q → Q) self d o sz name,
    ∃ self' e,
      Heatmap.heatmap c_float Kernel.tx self [] d o sz name None
      = (self', inl e)
      ∧ Heatmap.img self' = Heatmap.img self
      ∧ (∀ table : ColorScheme,
           Heatmap._schemes self !! name = Some table →
                  Forall well_formed_rgb table →
                  e = Exception_Processing
                  ∨ ∃ n, n < 0 ∧ e = ValueError_ArrayLength n).
Proof.
  intros c_float self d o sz name. apply heatmap_refused.
  intros a Hc Ho _ _ _.
  apply kernel_refuses_empty; [rewrite Hc; reflexivity | exact Ho].
Qed.

Lemma empty_render_fails_witness :
  ∃ self' e,
    render demo [] 3 255 (4, 4) "classic" None = (self', inl e)
    ∧ Heatmap.img self' = Heatmap.img demo
    ∧ (e = Exception_Processing ∨ ∃ n, n < 0 ∧ e = ValueError_ArrayLength n).
Proof.
  destruct (empty_render_fails c_float_id demo 3 255 (4, 4) "classic")
    as (self' & e & Hcall & Himg & Hkind).
  exists self', e. split; [exact Hcall|]. split; [exact Himg|].
  apply (Hkind (grey_ramp 256)); [vm_compute; reflexivity|].
  apply forallb_well_formed. vm_compute. reflexivity.
Defined.






(** ** Explicit areas *)

(** bottom_left <= top_right on each axis. *)
Definition ordered (a : Area) : Prop :=
  (fst (fst a) <= fst (snd a))%Q ∧ (snd (fst a) <= snd (snd a))%Q.

(** C6, as stated, fails: an Area given with its corners swapped is
    reported by [get_bounds] as it was given, after a render that
    succeeded. *)
Lemma inverted_area_reported_as_given :
  (∃ im, snd (render demo [(5, 5)]%Q 3 255 (4, 4) "classic"
                (Some ((10, 10), (0, 0))%Q)) = inr im)
  ∧ Heatmap.get_bounds
      (fst (render demo [(5, 5)]%Q 3 255 (4, 4) "classic"
              (Some ((10, 10), (0, 0))%Q)))
    = inr ((10, 10), (0, 0))%Q
  ∧ ¬ ordered ((10, 10), (0, 0))%Q.
Proof.
  split; [eexists; vm_compute; reflexivity|].
  split; [vm_compute; reflexivity|].
  intros [Hx _]. vm_compute in Hx. by apply Hx.
Qed.

(** C6, as amended.  An explicitly supplied Area is stored and reported as
    it was given, whatever the order of its corners: the wrapper takes no
    per-axis min or max, so the Area [get_bounds] reports has bottom_left <=
    top_right on each axis exactly when the supplied one has. *)
Theorem explicit_area_verbatim :
  ∀ (c_float : Q → Q) (tx : tx_args → Z * list Z)
    self pts d o sz name (a : Area) self' r,
    Heatmap.heatmap c_float tx self pts d o sz name (Some a) = (self', r) →
    Heatmap.area self' = Some a
    ∧ Heatmap.get_bounds self' = inr a
    ∧ ∀ b, Heatmap.get_bounds self' = inr b → (ordered b ↔ ordered a).
Proof.
  intros c_float tx self pts d o sz name a self' r Hcall.
  pose proof (get_bounds_after_call _ _ _ _ _ _ _ _ _ _ _ Hcall) as Hb.
  destruct (heatmap_state _ _ _ _ _ _ _ _ _ _ _ Hcall)
    as (_ & _ & _ & _ & Ha & _).
  split; [exact Ha|]. split; [exact Hb|].
  intros b Hb'. rewrite Hb in Hb'. by injection Hb' as <-.
Qed.

Lemma explicit_area_verbatim_witness :
  Heatmap.get_bounds
    (fst (render demo [(5, 5)]%Q 3 255 (4, 4) "classic"
            (Some ((10, 10), (0, 0))%Q)))
  = inr ((10, 10), (0, 0))%Q.
Proof.
  destruct (render demo [(5, 5)]%Q 3 255 (4, 4) "classic"
              (Some ((10, 10), (0, 0))%Q)) as [self' r] eqn:E.
  exact (proj1 (proj2 (explicit_area_verbatim c_float_id Kernel.tx
                         _ _ _ _ _ _ _ _ _ E))).
Defined.

(** ** Saturation of the accumulation grid *)

(** Every cell is a density in [0, 255]. *)
Definition in_range (cells : list Z) : Prop :=
  Forall (fun v => 0 <= v <= 255) cells.

Definition nonneg_weight (wr : Z * Z * Z) : Prop := 0 <= snd wr.

Lemma falloff_nonneg (d i j : Z) : 0 <= Kernel.falloff d i j.
Proof. unfold Kernel.falloff. apply Z.le_max_l. Qed.

Lemma DotStamp_nonneg (d : Z) : Forall nonneg_weight (Kernel.DotStamp d).
Proof.
  apply List.Forall_forall. intros [[i j] wt] Hin.
  unfold Kernel.DotStamp in Hin. apply in_flat_map in Hin as [j' [_ Hin]].
  apply in_map_iff in Hin as [i' [[= <- <- <-] _]].
  apply falloff_nonneg.
Qed.

Lemma stamp_writes_nonneg (d : Z) (center : Z * Z) :
  Forall nonneg_weight (Kernel.stamp_writes d center).
Proof.
  unfold Kernel.stamp_writes. apply List.Forall_forall. intros wr Hin.
  apply in_map_iff in Hin as [[[i j] wt] [<- Hin]].
  pose proof (DotStamp_nonneg d) as Hs.
  rewrite List.Forall_forall in Hs. exact (Hs _ Hin).
Qed.

Lemma stamping_writes_nonneg (d : Z) (centers : list (Z * Z)) :
  Forall nonneg_weight (Kernel.stamping_writes d centers).
Proof.
  unfold Kernel.stamping_writes. apply List.Forall_forall. intros wr Hin.
  apply in_flat_map in Hin as [c [_ Hin]].
  pose proof (stamp_writes_nonneg d c) as Hs.
  rewrite List.Forall_forall in Hs. exact (Hs _ Hin).
Qed.

Lemma zero_buffer_in_range (w h : Z) : in_range (Kernel.zero_buffer w h).
Proof.
  unfold in_range, Kernel.zero_buffer. apply List.Forall_forall.
  intros v Hin. apply repeat_spec in Hin as ->. lia.
Qed.

Lemma sat_add_in_range (v wt : Z) :
  0 <= v <= 255 → 0 <= wt → 0 <= Kernel.sat_add v wt <= 255.
Proof. unfold Kernel.sat_add. lia. Qed.

(** One cell write keeps the grid in range. *)
Lemma write_in_range (w h : Z) (cells : list Z) (wr : Z * Z * Z) :
  in_range cells → nonneg_weight wr → in_range (Kernel.write w h cells wr).
Proof.
  intros Hr Hwt. destruct wr as [[col row] wt]. unfold Kernel.write.
  destruct ((0 <=? col) && (col <? w) && (0 <=? row) && (row <? h));
    [|exact Hr].
  destruct (cells !! Z.to_nat (row * w + col)) as [v|] eqn:Hv; [|exact Hr].
  apply Forall_insert; [exact Hr|].
  apply sat_add_in_range; [|exact Hwt].
  exact (Forall_lookup_1 _ _ _ _ Hr Hv).
Qed.

Lemma writes_in_range (w h : Z) (ws : list (Z * Z * Z)) (cells : list Z) :
  in_range cells → Forall nonneg_weight ws →
  in_range (fold_left (Kernel.write w h) ws cells).
Proof.
  revert cells. induction ws as [|wr ws IH]; intros cells Hr Hws; simpl.
  - exact Hr.
  - inversion Hws as [|? ? Hwr Hrest]; subst.
    apply IH; [by apply write_in_range | exact Hrest].
Qed.

(** The stamping pass is the sequence of its cell writes. *)
Lemma accumulate_as_writes (w h d : Z) (centers : list (Z * Z))
    (cells : list Z) :
  fold_left (Kernel.stamp w h d) centers cells
  = fold_left (Kernel.write w h) (Kernel.stamping_writes d centers) cells.
Proof.
  revert cells. induction centers as [|c centers IH]; intros cells.
  - reflexivity.
  - cbn [fold_left Kernel.stamping_writes flat_map].
    rewrite fold_left_app, IH. reflexivity.
Qed.

(** The cell a write lands on, if it lands inside the grid. *)
Definition target (w h : Z) (wr : Z * Z * Z) : option nat :=
  let '(col, row, _) := wr in
  if (0 <=? col) && (col <? w) && (0 <=? row) && (row <? h)
  then Some (Z.to_nat (row * w + col))
  else None.

(** The sum of the weights that the writes [ws] aim at cell [k]. *)
Definition hits (w h : Z) (k : nat) (ws : list (Z * Z * Z)) : Z :=
  fold_right
    (fun wr acc => if decide (target w h wr = Some k) then snd wr + acc
                   else acc)
    0 ws.

(** The grid after the first [n] cell writes of the stamping pass. *)
Definition grid_after (w h d : Z) (centers : list (Z * Z)) (n : nat)
  : list Z :=
  fold_left (Kernel.write w h)
    (take n (Kernel.stamping_writes d centers)) (Kernel.zero_buffer w h).

Lemma repeat_lookup {A : Type} (x : A) (n i : nat) :
  (i < n)%nat → repeat x n !! i = Some x.
Proof.
  revert i. induction n as [|n IH]; intros i Hi; [lia|].
  destruct i as [|i]; [reflexivity|]. cbn. apply IH. lia.
Qed.

(** What one write does to each cell: the targeted cell gets the clamped
    sum, every other cell is left alone. *)
Lemma write_lookup (w h : Z) (cells : list Z) (wr : Z * Z * Z) (k : nat) :
  Kernel.write w h cells wr !! k
  = match cells !! k with
    | Some v =>
        Some (if decide (target w h wr = Some k)
              then Z.min 255 (v + snd wr) else v)
    | None => None
    end.
Proof.
  destruct wr as [[col row] wt]. unfold Kernel.write, target. cbn [snd].
  destruct ((0 <=? col) && (col <? w) && (0 <=? row) && (row <? h)).
  - destruct (decide (Some (Z.to_nat (row * w + col)) = Some k)) as [[= <-]|Hne].
    + destruct (cells !! Z.to_nat (row * w + col)) as [v|] eqn:Hv.
      * rewrite list_lookup_insert_eq; [reflexivity|].
        by apply lookup_lt_Some in Hv.
      * by rewrite Hv.
    + assert (Hk : Z.to_nat (row * w + col) ≠ k) by congruence.
      destruct (cells !! Z.to_nat (row * w + col)) as [v|] eqn:Hv.
      * rewrite list_lookup_insert_ne by done. by destruct (cells !! k).
      * by destruct (cells !! k).
  - destruct (decide (None = Some k)); [discriminate|].
    by destruct (cells !! k).
Qed.

Lemma hits_nonneg (w h : Z) (k : nat) (ws : list (Z * Z * Z)) :
  Forall nonneg_weight ws → 0 <= hits w h k ws.
Proof.
  induction 1 as [|wr ws Hwr _ IH]; cbn [hits fold_right]; [lia|].
  fold (hits w h k ws). unfold nonneg_weight in Hwr.
  destruct (decide (target w h wr = Some k)); lia.
Qed.

Lemma hits_app (w h : Z) (k : nat) (l1 l2 : list (Z * Z * Z)) :
  hits w h k (l1 ++ l2) = hits w h k l1 + hits w h k l2.
Proof.
  induction l1 as [|wr l1 IH]; [reflexivity|].
  cbn [app hits fold_right]. fold (hits w h k (l1 ++ l2)).
  fold (hits w h k l1). rewrite IH.
  destruct (decide (target w h wr = Some k)); lia.
Qed.

Lemma hits_member (w h : Z) (k : nat) (ws : list (Z * Z * Z))
    (wr : Z * Z * Z) :
  Forall nonneg_weight ws → wr ∈ ws → target w h wr = Some k →
  snd wr <= hits w h k ws.
Proof.
  intros Hws Hin Ht. induction Hws as [|wr' ws Hwr' Hws IH].
  - inversion Hin.
  - cbn [hits fold_right]. fold (hits w h k ws).
    pose proof (hits_nonneg w h k ws Hws) as Hpos.
    unfold nonneg_weight in Hwr'.
    apply elem_of_cons in Hin as [<-|Hin].
    + rewrite decide_True by exact Ht. lia.
    + specialize (IH Hin). destruct (decide (target w h wr' = Some k)); lia.
Qed.

(** The value of a cell after a sequence of writes: its value before plus
    everything aimed at it, clamped at 255. *)
Lemma writes_lookup (w h : Z) (ws : list (Z * Z * Z)) (cells : list Z)
    (k : nat) (v : Z) :
  Forall nonneg_weight ws → cells !! k = Some v → v <= 255 →
  fold_left (Kernel.write w h) ws cells !! k
  = Some (Z.min 255 (v + hits w h k ws)).
Proof.
  intros Hws. revert cells v.
  induction Hws as [|wr ws Hwr Hws IH]; intros cells v Hv Hle.
  - cbn. rewrite Hv. f_equal. lia.
  - cbn [fold_left hits fold_right]. fold (hits w h k ws).
    pose proof (hits_nonneg w h k ws Hws) as Hpos.
    unfold nonneg_weight in Hwr.
    pose proof (write_lookup w h cells wr k) as Hw. rewrite Hv in Hw.
    destruct (decide (target w h wr = Some k)).
    + rewrite (IH _ _ Hw) by lia. f_equal. lia.
    + rewrite (IH _ _ Hw) by lia. reflexivity.
Qed.

(** The weight at the middle of the stamp. *)
Lemma falloff_middle (d : Z) :
  1 <= d → 75 <= Kernel.falloff d ((d - 1) / 2) ((d - 1) / 2).
Proof.
  intros Hd. unfold Kernel.falloff.
  pose proof (Z.div_mod (d - 1) 2 ltac:(lia)) as Hdm.
  pose proof (Z.mod_pos_bound (d - 1) 2 ltac:(lia)) as Hr.
  assert (Hcase : 2 * ((d - 1) / 2) - (d - 1) = 0
                  ∨ (2 * ((d - 1) / 2) - (d - 1) = -1 ∧ 2 <= d)) by lia.
  destruct Hcase as [->|[-> Hd2]].
  - change (Z.sqrt (255 * 255 * (0 * 0 + 0 * 0))) with 0.
    rewrite Z.div_0_l by lia. lia.
  - change (Z.sqrt (255 * 255 * (-1 * -1 + -1 * -1))) with 360.
    assert (360 / d <= 360 / 2)
      by (apply Z.div_le_compat_l; lia).
    change (360 / 2) with 180 in *. lia.
Qed.

Lemma range_elem (d i : Z) : 0 <= i < d → In i (Kernel.range d).
Proof.
  intros Hi. unfold Kernel.range. apply in_map_iff.
  exists (Z.to_nat i). split; [lia|]. apply in_seq. lia.
Qed.

(** Every stamp writes the middle weight to the pixel under its middle. *)
Lemma stamp_writes_middle (d : Z) (center : Z * Z) :
  1 <= d →
  (fst center - d / 2 + (d - 1) / 2, snd center - d / 2 + (d - 1) / 2,
   Kernel.falloff d ((d - 1) / 2) ((d - 1) / 2))
  ∈ Kernel.stamp_writes d center.
Proof.
  intros Hd. apply list_elem_of_In. unfold Kernel.stamp_writes.
  apply in_map_iff.
  exists ((d - 1) / 2, (d - 1) / 2,
          Kernel.falloff d ((d - 1) / 2) ((d - 1) / 2)).
  split; [reflexivity|].
  assert (Hmid : 0 <= (d - 1) / 2 < d).
  { split; [apply Z.div_pos; lia|].
    apply Z.div_lt_upper_bound; lia. }
  unfold Kernel.DotStamp. apply in_flat_map.
  exists ((d - 1) / 2). split; [by apply range_elem|].
  apply in_map_iff. exists ((d - 1) / 2). split; [reflexivity|].
  by apply range_elem.
Qed.

Lemma stamping_writes_repeat_hits (w h d : Z) (center : Z * Z) (k n : nat) :
  1 <= d →
  target w h (fst center - d / 2 + (d - 1) / 2,
              snd center - d / 2 + (d - 1) / 2,
              Kernel.falloff d ((d - 1) / 2) ((d - 1) / 2)) = Some k →
  Z.of_nat n * 75
  <= hits w h k (Kernel.stamping_writes d (repeat center n)).
Proof.
  intros Hd Ht. induction n as [|n IH]; [cbn; lia|].
  cbn [repeat Kernel.stamping_writes flat_map].
  fold (Kernel.stamping_writes d (repeat center n)).
  rewrite hits_app.
  pose proof (hits_member w h k _ _ (stamp_writes_nonneg d center)
                (stamp_writes_middle d center Hd) Ht) as Hm.
  cbn [snd] in Hm. pose proof (falloff_middle d Hd). lia.
Qed.

(** C7.  The stamping pass of a render is a sequence of cell writes on a
    zeroed grid.  After any number [n] of them every cell is in [0, 255],
    and holds exactly the sum of the stamp weights aimed at it so far,
    clamped at 255: a write adds its weight to the cell and clamps the
    result at 255, it never wraps and never lowers a cell.  However many
    stamps cover a pixel, its cell stays at 255: four or more points at the
    same pixel, with any dotsize, leave the cell under the middle of the
    stamp at exactly 255.  The grid the colorizer reads is the one after
    the last write. *)
Theorem accumulation_saturates :
  ∀ (w h d : Z) (centers : list (Z * Z)),
    Kernel.accumulate w h d centers
    = fold_left (Kernel.write w h) (Kernel.stamping_writes d centers)
        (Kernel.zero_buffer w h)
    ∧ (∀ n : nat,
         in_range (fold_left (Kernel.write w h)
                     (take n (Kernel.stamping_writes d centers))
                     (Kernel.zero_buffer w h)))
    ∧ in_range (Kernel.accumulate w h d centers)
    ∧ (∀ (n k : nat),
         (k < Z.to_nat (w * h))%nat →
         grid_after w h d centers n !! k
         = Some (Z.min 255
                   (hits w h k (take n (Kernel.stamping_writes d centers)))))
    ∧ (∀ (cells : list Z) (col row wt v : Z),
         0 <= col < w → 0 <= row < h →
         cells !! Z.to_nat (row * w + col) = Some v →
         Kernel.write w h cells (col, row, wt) !! Z.to_nat (row * w + col)
         = Some (Z.min 255 (v + wt))
         ∧ ∀ k', k' ≠ Z.to_nat (row * w + col) →
                 Kernel.write w h cells (col, row, wt) !! k' = cells !! k')
    ∧ (∀ (n k : nat) (v v' : Z),
         grid_after w h d centers n !! k = Some v →
         grid_after w h d centers (S n) !! k = Some v' →
         v <= v')
    ∧ (∀ (center : Z * Z) (n : nat),
         let px := fst center - d / 2 + (d - 1) / 2 in
         let py := snd center - d / 2 + (d - 1) / 2 in
         1 <= d → (4 <= n)%nat → 0 <= px < w → 0 <= py < h →
         Kernel.accumulate w h d (repeat center n) !! Z.to_nat (py * w + px)
         = Some 255).
Proof.
  intros w h d centers.
  assert (Hacc : ∀ cs, Kernel.accumulate w h d cs
                       = fold_left (Kernel.write w h)
                           (Kernel.stamping_writes d cs)
                           (Kernel.zero_buffer w h))
    by (intros cs; apply accumulate_as_writes).
  assert (Hrange : ∀ n, in_range (grid_after w h d centers n)).
  { intros n. apply writes_in_range; [apply zero_buffer_in_range|].
    apply Forall_take, stamping_writes_nonneg. }
  assert (Hclosed : ∀ ws k,
             Forall nonneg_weight ws → (k < Z.to_nat (w * h))%nat →
             fold_left (Kernel.write w h) ws (Kernel.zero_buffer w h) !! k
             = Some (Z.min 255 (hits w h k ws))).
  { intros ws k Hws Hk.
    rewrite (writes_lookup w h ws _ k 0 Hws); [reflexivity| |lia].
    unfold Kernel.zero_buffer. by apply repeat_lookup. }
  split; [apply Hacc|]. split; [exact Hrange|]. split.
  { rewrite Hacc. apply writes_in_range;
      [apply zero_buffer_in_range | apply stamping_writes_nonneg]. }
  split.
  { intros n k Hk. apply Hclosed; [|exact Hk].
    apply Forall_take, stamping_writes_nonneg. }
  split.
  { intros cells col row wt v Hc Hr Hv.
    assert (Ht : target w h (col, row, wt) = Some (Z.to_nat (row * w + col))).
    { unfold target.
      replace ((0 <=? col) && (col <? w) && (0 <=? row) && (row <? h))
        with true; [reflexivity|].
      symmetry. rewrite !andb_true_iff, !Z.leb_le, !Z.ltb_lt. lia. }
    split.
    - rewrite write_lookup, Hv. rewrite decide_True by exact Ht. reflexivity.
    - intros k' Hk'. rewrite write_lookup.
      destruct (cells !! k') as [v0|]; [|reflexivity].
      rewrite decide_False by (rewrite Ht; congruence). reflexivity. }
  split.
  { intros n k v v' Hv Hv'. unfold grid_after in Hv'.
    destruct (Kernel.stamping_writes d centers !! n) as [wr|] eqn:Hn.
    - rewrite (take_S_r _ _ _ Hn), fold_left_app in Hv'. cbn [fold_left] in Hv'.
      fold (grid_after w h d centers n) in Hv'.
      rewrite write_lookup, Hv in Hv'. injection Hv' as <-.
      assert (Hwr : nonneg_weight wr).
      { pose proof (stamping_writes_nonneg d centers) as Hall.
        rewrite List.Forall_forall in Hall. apply Hall.
        apply list_elem_of_In. by eapply list_elem_of_lookup_2. }
      unfold nonneg_weight in Hwr.
      pose proof (Hrange n) as Hr. unfold in_range in Hr.
      pose proof (Forall_lookup_1 _ _ _ _ Hr Hv) as Hb. cbn in Hb.
      destruct (decide (target w h wr = Some k)); lia.
    - apply lookup_ge_None in Hn.
      rewrite (take_ge _ (S n)) in Hv' by lia.
      unfold grid_after in Hv. rewrite (take_ge _ n) in Hv by lia.
      assert (v = v') by congruence. lia. }
  intros center n px py Hd Hn Hpx Hpy.
  rewrite Hacc.
  assert (Hk : (Z.to_nat (py * w + px) < Z.to_nat (w * h))%nat) by nia.
  rewrite (Hclosed _ _ (stamping_writes_nonneg d (repeat center n)) Hk).
  f_equal.
  assert (Ht : target w h (px, py,
                           Kernel.falloff d ((d - 1) / 2) ((d - 1) / 2))
               = Some (Z.to_nat (py * w + px))).
  { unfold target.
    replace ((0 <=? px) && (px <? w) && (0 <=? py) && (py <? h))
      with true; [reflexivity|].
    symmetry. rewrite !andb_true_iff, !Z.leb_le, !Z.ltb_lt. lia. }
  pose proof (stamping_writes_repeat_hits w h d center _ n Hd Ht) as Hsum.
  revert Hsum.
  generalize (hits w h (Z.to_nat (py * w + px))
                (Kernel.stamping_writes d (repeat center n))).
  intros total Hsum. clear - Hsum Hn. lia.
Qed.

Lemma accumulation_saturates_witness :
  Kernel.accumulate 20 20 10 (repeat (10, 10) 300) !! 189%nat = Some 255.
Proof.
  apply (proj2 (proj2 (proj2 (proj2 (proj2 (proj2
           (accumulation_saturates 20 20 10 [])))))) (10, 10) 300%nat).
  - lia.
  - lia.
  - vm_compute. split; [discriminate | reflexivity].
  - vm_compute. split; [discriminate | reflexivity].
Defined.

(** 300 points stamped at the same pixel with dotsize 10: the centre cell
    holds 255, and two stamps already reach it. *)
Example saturation_300_points :
  Kernel.accumulate 20 20 10 (repeat (10, 10) 300) !! 210%nat = Some 255
  ∧ Kernel.accumulate 20 20 10 (repeat (10, 10) 1) !! 210%nat = Some 219
  ∧ Kernel.accumulate 20 20 10 (repeat (10, 10) 2) !! 210%nat = Some 255.
Proof. vm_compute. repeat split. Qed.

(** ** Determinism *)

(** The outcome of [heatmap] depends on the instance only through the table
    registered under the scheme name. *)
Lemma heatmap_outcome_independent (c_float : Q → Q)
    (tx : tx_args → Z * list Z) (self1 self2 : Heatmap.t)
    (pts : list Point) (d o : Z) (sz : Z * Z) (name : string)
    (ar : option Area) :
  Heatmap._schemes self1 !! name = Heatmap._schemes self2 !! name →
  snd (Heatmap.heatmap c_float tx self1 pts d o sz name ar)
  = snd (Heatmap.heatmap c_float tx self2 pts d o sz name ar).
Proof.
  intros Hname. unfold Heatmap.heatmap. cbn [Heatmap._schemes Heatmap.img].
  rewrite Hname.
  destruct (Heatmap._schemes self2 !! name) as [table|]; [|reflexivity].
  destruct (Heatmap._convert_scheme table) as [e|arr_scheme]; [reflexivity|].
  destruct (Heatmap._alloc_output_buffer (fst sz) (snd sz) 4) as [e|buf];
    [reflexivity|].
  destruct (tx _) as [ret out].
  destruct (ret =? 0); reflexivity.
Qed.

(** C8.  Two successful renders with the same points, dotsize, opacity,
    size, scheme and area return the same image, byte for byte, whatever
    earlier calls left in the two instances; in particular when the second
    call is made on the instance the first one leaves. *)
Theorem render_deterministic :
  ∀ (c_float : Q → Q) (self1 self2 : Heatmap.t) pts d o sz name ar
    self1' self2' im1 im2,
    Heatmap._schemes self1 !! name = Heatmap._schemes self2 !! name →
    Heatmap.heatmap c_float Kernel.tx self1 pts d o sz name ar
    = (self1', inr im1) →
    Heatmap.heatmap c_float Kernel.tx self2 pts d o sz name ar
    = (self2', inr im2) →
    im_data im1 = im_data im2 ∧ im1 = im2
    ∧ ∃ self3,
        Heatmap.heatmap c_float Kernel.tx self1' pts d o sz name ar
        = (self3, inr im1).
Proof.
  intros c_float self1 self2 pts d o sz name ar self1' self2' im1 im2
    Hname H1 H2.
  assert (Him : im1 = im2).
  { pose proof (heatmap_outcome_independent c_float Kernel.tx self1 self2
                  pts d o sz name ar Hname) as Hsnd.
    rewrite H1, H2 in Hsnd. cbn in Hsnd. congruence. }
  split; [by rewrite Him|]. split; [exact Him|].
  destruct (heatmap_state _ _ _ _ _ _ _ _ _ _ _ H1)
    as (_ & _ & _ & _ & _ & _ & Hsch & _).
  pose proof (heatmap_outcome_independent c_float Kernel.tx self1' self1
                pts d o sz name ar) as Hsnd.
  rewrite Hsch, H1 in Hsnd. specialize (Hsnd eq_refl). cbn in Hsnd.
  destruct (Heatmap.heatmap c_float Kernel.tx self1' pts d o sz name ar)
    as [self3 r3]. cbn in Hsnd. subst r3. by exists self3.
Qed.

Lemma render_deterministic_witness :
  ∃ im,
    snd (render demo [(0, 0); (10, 10)]%Q 3 255 (4, 4) "classic" None)
    = inr im
    ∧ snd (render rendered [(0, 0); (10, 10)]%Q 3 255 (4, 4) "classic" None)
      = inr im.
Proof.
  assert (Hname : Heatmap._schemes demo !! "classic"
                  = Heatmap._schemes rendered !! "classic")
    by (vm_compute; reflexivity).
  destruct (render demo [(0, 0); (10, 10)]%Q 3 255 (4, 4) "classic" None)
    as [s1 [e1|im1]] eqn:E1; [vm_compute in E1; discriminate E1|].
  destruct (render rendered [(0, 0); (10, 10)]%Q 3 255 (4, 4) "classic" None)
    as [s2 [e2|im2]] eqn:E2; [vm_compute in E2; discriminate E2|].
  exists im1. split; [reflexivity|]. cbn. f_equal. symmetry.
  exact (proj1 (proj2 (render_deterministic c_float_id demo rendered
                         [(0, 0); (10, 10)]%Q 3 255 (4, 4) "classic" None
                         s1 s2 im1 im2 Hname E1 E2))).
Defined.

(** ** save_kml *)

(** A [%2.16f] for the integer coordinates of the examples: the integer in
    decimal, then sixteen zeros. *)
Definition fmt_f_int (q : Q) : string :=
  (NilZero.string_of_int (Z.to_int (Qfloor q)) ++ ".0000000000000000")%string.

(** An instance on which every call of [heatmap] so far has raised still
    has no image. *)
Lemma failed_call_keeps_no_image (c_float : Q → Q)
    (tx : tx_args → Z * list Z) (self : Heatmap.t) (pts : list Point)
    (d o : Z) (sz : Z * Z) (name : string) (ar : option Area)
    (self' : Heatmap.t) (e : exn) :
  Heatmap.img self = None →
  Heatmap.heatmap c_float tx self pts d o sz name ar = (self', inl e) →
  Heatmap.img self' = None.
Proof.
  intros Hnone Hcall.
  destruct (heatmap_state _ _ _ _ _ _ _ _ _ _ _ Hcall)
    as (_ & _ & _ & _ & _ & _ & _ & Hi).
  by rewrite Hi.
Qed.

(** C9.  On an instance whose stored image is still [None], as it is after
    [__init__], [save_kml] raises "Must first run heatmap() to generate
    image file." and the file system is what it was: neither the PNG nor
    the KML file is written. *)
Theorem save_kml_without_image :
  ∀ (fmt_f : Q → string) (self : Heatmap.t)
    (fs : gmap string file_content) (kml_file : string),
    Heatmap.img self = None →
    Heatmap.save_kml fmt_f self fs kml_file = (fs, inl Exception_NoImage).
Proof.
  intros fmt_f self fs kml_file Hnone.
  unfold Heatmap.save_kml. by rewrite Hnone.
Qed.

Lemma save_kml_without_image_witness :
  Heatmap.save_kml fmt_f_int demo ∅ "06-wash-dc.kml"
  = (∅, inl Exception_NoImage).
Proof.
  apply (save_kml_without_image fmt_f_int demo ∅ "06-wash-dc.kml").
  reflexivity.
Defined.

(** An instance that has rendered two points whose four coordinates
    differ. *)
Definition rendered_1234 : Heatmap.t :=
  fst (render demo [(1, 2); (3, 4)]%Q 3 255 (4, 4) "classic" None).

(** C10.  After a successful render, [save_kml] writes the image under the
    KML file's name with its extension replaced by ".png", and the KML text
    below, whose LatLonBox is filled from the bounds (bottom_left,
    top_right) that [get_bounds] reports: the north tag holds top_right.y,
    the south tag bottom_left.y, the east tag bottom_left.x and the west tag
    top_right.x. *)
Theorem save_kml_latlonbox :
  ∀ (c_float : Q → Q) (tx : tx_args → Z * list Z) (fmt_f : Q → string)
    self pts d o sz name ar self' im (bottom_left top_right : Point)
    (fs : gmap string file_content) (kml_file : string),
    Heatmap.heatmap c_float tx self pts d o sz name ar = (self', inr im) →
    Heatmap.get_bounds self' = inr (bottom_left, top_right) →
    let raster_path := (fst (OsPath.splitext kml_file) ++ ".png")%string in
    Heatmap.save_kml fmt_f self' fs kml_file
    = (<[kml_file :=
           Text (String.concat EmptyString
                   [ "<?xml version="; dq; "1.0"; dq; " encoding="; dq;
                     "UTF-8"; dq; "?>"; nl;
                     "<kml xmlns="; dq; "http://www.opengis.net/kml/2.2";
                     dq; ">"; nl;
                     "  <Folder>"; nl;
                     "    <GroundOverlay>"; nl;
                     "      <Icon>"; nl;
                     "        <href>"; raster_path; "</href>"; nl;
                     "      </Icon>"; nl;
                     "      <LatLonBox>"; nl;
                     "        <north>"; fmt_f (snd top_right); "</north>"; nl;
                     "        <south>"; fmt_f (snd bottom_left); "</south>";
                     nl;
                     "        <east>"; fmt_f (fst bottom_left); "</east>"; nl;
                     "        <west>"; fmt_f (fst top_right); "</west>"; nl;
                     "        <rotation>0</rotation>"; nl;
                     "      </LatLonBox>"; nl;
                     "    </GroundOverlay>"; nl;
                     "  </Folder>"; nl;
                     "</kml>" ])]>
         (<[raster_path := PNG im]> fs),
       inr tt).
Proof.
  intros c_float tx fmt_f self pts d o sz name ar self' im
    [min_x min_y] [max_x max_y] fs kml_file Hcall Hb raster_path.
  destruct (heatmap_state _ _ _ _ _ _ _ _ _ _ _ Hcall)
    as (_ & _ & _ & _ & _ & _ & _ & Hi).
  unfold Heatmap.save_kml. rewrite Hi, Hb. reflexivity.
Qed.

Lemma save_kml_latlonbox_witness :
  snd (Heatmap.save_kml fmt_f_int rendered_1234 ∅ "06-wash-dc.kml") = inr tt
  ∧ fst (Heatmap.save_kml fmt_f_int rendered_1234 ∅ "06-wash-dc.kml")
      !! "06-wash-dc.kml"
    = Some (Text (String.concat EmptyString
                    [ "<?xml version="; dq; "1.0"; dq; " encoding="; dq;
                      "UTF-8"; dq; "?>"; nl;
                      "<kml xmlns="; dq; "http://www.opengis.net/kml/2.2";
                      dq; ">"; nl;
                      "  <Folder>"; nl;
                      "    <GroundOverlay>"; nl;
                      "      <Icon>"; nl;
                      "        <href>06-wash-dc.png</href>"; nl;
                      "      </Icon>"; nl;
                      "      <LatLonBox>"; nl;
                      "        <north>4.0000000000000000</north>"; nl;
                      "        <south>2.0000000000000000</south>"; nl;
                      "        <east>1.0000000000000000</east>"; nl;
                      "        <west>3.0000000000000000</west>"; nl;
                      "        <rotation>0</rotation>"; nl;
                      "      </LatLonBox>"; nl;
                      "    </GroundOverlay>"; nl;
                      "  </Folder>"; nl;
                      "</kml>" ])).
Proof.
  destruct (render demo [(1, 2); (3, 4)]%Q 3 255 (4, 4) "classic" None)
    as [self' [e|im]] eqn:E; [vm_compute in E; discriminate E|].
  assert (Hr : rendered_1234 = self') by (unfold rendered_1234; by rewrite E).
  assert (Hb : Heatmap.get_bounds self' = inr ((1, 2), (3, 4))%Q)
    by (rewrite <- Hr; vm_compute; reflexivity).
  rewrite Hr.
  rewrite (save_kml_latlonbox c_float_id Kernel.tx fmt_f_int
             _ _ _ _ _ _ _ _ _ _ _ ∅ "06-wash-dc.kml" E Hb).
  split; [reflexivity|]. cbn [fst]. rewrite lookup_insert_eq. reflexivity.
Defined.

(** * Further properties of the wrapper *)

(** ** The arrays handed to the kernel *)

(** [_convert_points] lays the coordinates out as x0, y0, x1, y1, ...: the
    array has two floats per point, which is the count [heatmap] passes as
    [len(points) * 2], and point [i] sits at indices [2i] and [2i + 1]. *)
Theorem convert_points_layout :
  ∀ (c_float : Q → Q) (pts : list Point),
    length (Heatmap._convert_points c_float pts) = (2 * length pts)%nat
    ∧ ∀ (i : nat) (x y : Q),
        pts !! i = Some (x, y) →
        Heatmap._convert_points c_float pts !! (2 * i)%nat = Some (c_float x)
        ∧ Heatmap._convert_points c_float pts !! (2 * i + 1)%nat
          = Some (c_float y).
Proof.
  intros c_float pts. unfold Heatmap._convert_points.
  induction pts as [|[x0 y0] pts [IHlen IHget]].
  - split; [reflexivity|]. intros i x y Hi. discriminate Hi.
  - cbn [flat_map List.map app fst snd]. split.
    + cbn [length]. rewrite IHlen. lia.
    + intros [|i] x y Hi.
      * injection Hi as <- <-. split; reflexivity.
      * replace (2 * S i)%nat with (S (S (2 * i))) by lia.
        replace (S (S (2 * i)) + 1)%nat with (S (S (2 * i + 1))) by lia.
        cbn [lookup list_lookup]. apply IHget. exact Hi.
Qed.

Lemma convert_points_layout_witness :
  Heatmap._convert_points c_float_id [(0, 0); (10, 20)]%Q !! 2%nat
  = Some 10%Q
  ∧ Heatmap._convert_points c_float_id [(0, 0); (10, 20)]%Q !! 3%nat
    = Some 20%Q.
Proof.
  apply (proj2 (convert_points_layout c_float_id [(0, 0); (10, 20)]%Q)
           1%nat 10%Q 20%Q).
  reflexivity.
Defined.

(** A conversion that returns did so on a table of well-formed entries, and
    returns their concatenation. *)
Lemma convert_scheme_inr (scheme : ColorScheme) (flat : list Z) :
  Heatmap._convert_scheme scheme = inr flat →
  Forall well_formed_rgb scheme ∧ flat = concat scheme.
Proof.
  intros Hconv. unfold Heatmap._convert_scheme in Hconv.
  destruct (forallb well_formed_rgbb scheme) eqn:Hb.
  - pose proof (forallb_well_formed scheme Hb) as Hwf.
    rewrite (convert_scheme_loop_ok scheme [] Hwf) in Hconv.
    cbn [app] in Hconv. split; [exact Hwf | congruence].
  - destruct (convert_scheme_loop_bad scheme []
                (forallb_not_well_formed scheme Hb)) as [e [He _]].
    congruence.
Qed.

Lemma concat_well_formed_layout (scheme : ColorScheme) :
  Forall well_formed_rgb scheme →
  length (concat scheme) = (3 * length scheme)%nat
  ∧ Forall (fun c => 0 <= c <= 255) (concat scheme)
  ∧ ∀ (k : nat) (rgb : RGB),
      scheme !! k = Some rgb →
      ∃ r g b, rgb = [r; g; b]
               ∧ concat scheme !! (3 * k)%nat = Some r
               ∧ concat scheme !! (3 * k + 1)%nat = Some g
               ∧ concat scheme !! (3 * k + 2)%nat = Some b.
Proof.
  induction scheme as [|rgb0 rest IH]; intros Hwf.
  - repeat split; [constructor|]. intros k rgb Hk. discriminate Hk.
  - inversion Hwf as [|? ? [Hlen Hch] Hrest]; subst.
    destruct (IH Hrest) as (IHlen & IHch & IHget).
    destruct rgb0 as [|r0 [|g0 [|b0 [|? ?]]]]; try discriminate Hlen.
    cbn [concat app]. split; [cbn [length]; rewrite IHlen; lia|].
    split.
    + inversion Hch as [|? ? Hr H1]; subst.
      inversion H1 as [|? ? Hg H2]; subst.
      inversion H2 as [|? ? Hb _]; subst.
      repeat constructor; try lia. exact IHch.
    + intros [|k] rgb Hk.
      * injection Hk as <-. exists r0, g0, b0. repeat split.
      * destruct (IHget k rgb Hk) as (r & g & b & -> & Hr & Hg & Hb).
        exists r, g, b. split; [reflexivity|].
        replace (3 * S k)%nat with (S (S (S (3 * k)))) by lia.
        replace (S (S (S (3 * k))) + 1)%nat
          with (S (S (S (3 * k + 1)))) by lia.
        replace (S (S (S (3 * k))) + 2)%nat
          with (S (S (S (3 * k + 2)))) by lia.
        cbn [lookup list_lookup]. by repeat split.
Qed.

(** When [_convert_scheme] returns, the array holds three integers per
    entry of the table, all in [0, 255], and entry [k] sits at indices [3k],
    [3k + 1], [3k + 2] as red, green, blue: the [c_int] array of length
    [len(scheme) * 3] is filled exactly. *)
Theorem convert_scheme_layout :
  ∀ (scheme : ColorScheme) (flat : list Z),
    Heatmap._convert_scheme scheme = inr flat →
    length flat = (3 * length scheme)%nat
    ∧ Forall (fun c => 0 <= c <= 255) flat
    ∧ ∀ (k : nat) (rgb : RGB),
        scheme !! k = Some rgb →
        ∃ r g b, rgb = [r; g; b]
                 ∧ flat !! (3 * k)%nat = Some r
                 ∧ flat !! (3 * k + 1)%nat = Some g
                 ∧ flat !! (3 * k + 2)%nat = Some b.
Proof.
  intros scheme flat Hconv.
  destruct (convert_scheme_inr scheme flat Hconv) as [Hwf ->].
  by apply concat_well_formed_layout.
Qed.

Lemma convert_scheme_layout_witness :
  ∃ flat, Heatmap._convert_scheme (grey_ramp 256) = inr flat
          ∧ length flat = 768%nat
          ∧ flat !! 30%nat = Some 10.
Proof.
  destruct (Heatmap._convert_scheme (grey_ramp 256)) as [e|flat] eqn:E;
    [vm_compute in E; discriminate E|].
  exists flat. split; [reflexivity|].
  destruct (convert_scheme_layout (grey_ramp 256) flat E) as (Hlen & _ & Hget).
  split; [exact Hlen|].
  destruct (Hget 10%nat [10; 10; 10] eq_refl) as (r & g & b & Hrgb & Hr & _).
  injection Hrgb as <- _ _. exact Hr.
Defined.

(** The exception of [_convert_scheme] is about the first entry that is not
    well formed: [TypeError] with that entry, or the [ValueError] of [min]
    when that entry is empty.  Entries after it are not looked at. *)
Theorem convert_scheme_first_offender :
  ∀ (good : ColorScheme) (bad : RGB) (rest : ColorScheme),
    Forall well_formed_rgb good →
    ¬ well_formed_rgb bad →
    Heatmap._convert_scheme (good ++ bad :: rest)
    = inl (match bad with
           | [] => ValueError_MinEmpty
           | _ :: _ => TypeError_InvalidRGB bad
           end).
Proof.
  intros good bad rest Hgood Hbad. unfold Heatmap._convert_scheme.
  generalize (@nil Z) as flat.
  induction good as [|rgb good IH]; intros flat.
  - cbn [app Heatmap._convert_scheme_loop].
    destruct bad as [|c cs]; [reflexivity|].
    destruct ((tuple_min c cs <? 0) || (255 <? tuple_max c cs)
              || negb (Nat.eqb (length (c :: cs)) 3)) eqn:Hg; [reflexivity|].
    apply rgb_guard in Hg. contradiction.
  - inversion Hgood as [|? ? Hrgb Hgood']; subst.
    cbn [app Heatmap._convert_scheme_loop].
    destruct rgb as [|c cs]; [destruct Hrgb as [Hlen _]; discriminate Hlen|].
    apply rgb_guard in Hrgb. rewrite Hrgb. by apply IH.
Qed.

Lemma convert_scheme_first_offender_witness :
  Heatmap._convert_scheme ([[0; 0; 0]; [1; 2; 3]] ++ [1; 2] :: [[]; [300]])
  = inl (TypeError_InvalidRGB [1; 2]).
Proof.
  apply (convert_scheme_first_offender [[0; 0; 0]; [1; 2; 3]] [1; 2]
           [[]; [300]]).
  - apply forallb_well_formed. reflexivity.
  - intros [Hlen _]. discriminate Hlen.
Defined.

(** ** The outcome of [heatmap] *)







(** ** More on the bounding box *)

(** Two Areas with numerically equal coordinates. *)
Definition area_eq (a b : Area) : Prop :=
  (fst (fst a) == fst (fst b))%Q ∧ (snd (fst a) == snd (fst b))%Q
  ∧ (fst (snd a) == fst (snd b))%Q ∧ (snd (snd a) == snd (snd b))%Q.

Lemma create_bbox_inr (pts : list Point) (b : Area) :
  Heatmap._create_bbox (Some pts) = inr b →
  (∃ p0 rest, pts = p0 :: rest) ∧ is_bbox pts b.
Proof.
  destruct pts as [|p0 rest]; [discriminate|]. intros Hb.
  split; [by eauto|].
  destruct (create_bbox_spec p0 rest) as [b' [Hb' Hbox]]. congruence.
Qed.

Lemma is_min_unique (f : Point → Q) (l l' : list Point) (m m' : Q) :
  (∀ p, p ∈ l ↔ p ∈ l') → is_min f l m → is_min f l' m' → (m == m')%Q.
Proof.
  intros Hsame [[p [Hp <-]] Hle] [[p' [Hp' <-]] Hle'].
  apply Qle_antisym; [apply Hle; by apply Hsame | apply Hle'; by apply Hsame].
Qed.

Lemma is_max_unique (f : Point → Q) (l l' : list Point) (m m' : Q) :
  (∀ p, p ∈ l ↔ p ∈ l') → is_max f l m → is_max f l' m' → (m == m')%Q.
Proof.
  intros Hsame [[p [Hp <-]] Hle] [[p' [Hp' <-]] Hle'].
  apply Qle_antisym; [apply Hle'; by apply Hsame | apply Hle; by apply Hsame].
Qed.

(** The bounds derived from the points are in order on both axes, min <=
    max, and every point lies between them. *)
Theorem create_bbox_ordered :
  ∀ (pts : list Point) (b : Area),
    Heatmap._create_bbox (Some pts) = inr b →
    ordered b
    ∧ ∀ p, p ∈ pts →
           (fst (fst b) <= fst p <= fst (snd b))%Q
           ∧ (snd (fst b) <= snd p <= snd (snd b))%Q.
Proof.
  intros pts b Hb.
  destruct (create_bbox_inr pts b Hb)
    as [(p0 & rest & ->) ([_ Hx] & [_ Hy] & [_ HX] & [_ HY])].
  split.
  - assert (Hin : p0 ∈ p0 :: rest) by constructor. split.
    + eapply Qle_trans; [by apply Hx | by apply HX].
    + eapply Qle_trans; [by apply Hy | by apply HY].
  - intros p Hp. repeat split; auto.
Qed.

Lemma create_bbox_ordered_witness :
  ordered ((-3, 0), (7, 5))%Q.
Proof.
  apply (create_bbox_ordered [(7, 0); (-3, 5); (2, 2)]%Q ((-3, 0), (7, 5))%Q).
  reflexivity.
Defined.

(** The bounds do not depend on the order in which the points are given, nor
    on repetitions: two lists with the same points give numerically equal
    bounds. *)
Theorem create_bbox_order_independent :
  ∀ (pts pts' : list Point) (b : Area),
    (∀ p, p ∈ pts ↔ p ∈ pts') →
    Heatmap._create_bbox (Some pts) = inr b →
    ∃ b', Heatmap._create_bbox (Some pts') = inr b' ∧ area_eq b b'.
Proof.
  intros pts pts' b Hsame Hb.
  destruct (create_bbox_inr pts b Hb)
    as [(p0 & rest & ->) (Hx & Hy & HX & HY)].
  destruct pts' as [|p0' rest'].
  - exfalso. assert (Hin : p0 ∈ p0 :: rest) by constructor.
    apply Hsame in Hin. inversion Hin.
  - destruct (create_bbox_spec p0' rest') as [b' [Hb' (Hx' & Hy' & HX' & HY')]].
    exists b'. split; [exact Hb'|]. unfold area_eq. repeat split.
    + exact (is_min_unique fst _ _ _ _ Hsame Hx Hx').
    + exact (is_min_unique snd _ _ _ _ Hsame Hy Hy').
    + exact (is_max_unique fst _ _ _ _ Hsame HX HX').
    + exact (is_max_unique snd _ _ _ _ Hsame HY HY').
Qed.

Lemma create_bbox_order_independent_witness :
  ∃ b', Heatmap._create_bbox (Some [(2, 2); (-3, 5); (7, 0); (2, 2)]%Q)
        = inr b'
        ∧ area_eq ((-3, 0), (7, 5))%Q b'.
Proof.
  apply (create_bbox_order_independent [(7, 0); (-3, 5); (2, 2)]%Q).
  - intros p. rewrite !elem_of_cons. rewrite !elem_of_nil. tauto.
  - reflexivity.
Defined.

(** The derived bounds are degenerate on the x axis (min x = max x) exactly
    when all points have the same x, and likewise on the y axis; with a
    single point they are degenerate on both. *)
Theorem create_bbox_degenerate :
  ∀ (pts : list Point) (b : Area),
    Heatmap._create_bbox (Some pts) = inr b →
    ((fst (fst b) == fst (snd b))%Q
       ↔ ∀ p q, p ∈ pts → q ∈ pts → (fst p == fst q)%Q)
    ∧ ((snd (fst b) == snd (snd b))%Q
       ↔ ∀ p q, p ∈ pts → q ∈ pts → (snd p == snd q)%Q).
Proof.
  intros pts b Hb.
  destruct (create_bbox_inr pts b Hb)
    as [_ ([[px [Hpx Epx]] Hx] & [[py [Hpy Epy]] Hy]
           & [[pX [HpX EpX]] HX] & [[pY [HpY EpY]] HY])].
  split; split.
  - intros Heq p q Hp Hq. apply Qle_antisym.
    + eapply Qle_trans; [by apply HX|]. rewrite <- Heq. by apply Hx.
    + eapply Qle_trans; [by apply HX|]. rewrite <- Heq. by apply Hx.
  - intros Hall. rewrite <- Epx, <- EpX. by apply Hall.
  - intros Heq p q Hp Hq. apply Qle_antisym.
    + eapply Qle_trans; [by apply HY|]. rewrite <- Heq. by apply Hy.
    + eapply Qle_trans; [by apply HY|]. rewrite <- Heq. by apply Hy.
  - intros Hall. rewrite <- Epy, <- EpY. by apply Hall.
Qed.

Lemma create_bbox_degenerate_witness :
  (fst (fst ((5, 0), (5, 10))) == fst (snd ((5, 0), (5, 10))))%Q.
Proof.
  apply (proj2 (proj1 (create_bbox_degenerate [(5, 0); (5, 10)]%Q
                         ((5, 0), (5, 10))%Q eq_refl))).
  intros p q Hp Hq.
  rewrite !elem_of_cons, elem_of_nil in Hp.
  rewrite !elem_of_cons, elem_of_nil in Hq.
  destruct Hp as [->|[->|[]]], Hq as [->|[->|[]]]; reflexivity.
Defined.

(** ** Instances reached by calls of [heatmap] *)

(** The instances a program can hold: the one [__init__] builds, and the one
    left by any call of [heatmap], successful or not, on such an instance. *)
Inductive reachable (c_float : Q → Q) (tx : tx_args → Z * list Z)
    (schemes : gmap string ColorScheme) : Heatmap.t → Prop :=
| reach_init : reachable c_float tx schemes (Heatmap.init schemes)
| reach_call (self : Heatmap.t) (pts : list Point) (d o : Z) (sz : Z * Z)
    (name : string) (ar : option Area) :
    reachable c_float tx schemes self →
    reachable c_float tx schemes
      (fst (Heatmap.heatmap c_float tx self pts d o sz name ar)).

(** The stored arguments are all unset, or all those of one call. *)
Definition coherent (self : Heatmap.t) : Prop :=
  (Heatmap.points self = None ∧ Heatmap.dotsize self = None
   ∧ Heatmap.opacity self = None ∧ Heatmap.size self = None
   ∧ Heatmap.area self = None ∧ Heatmap.override self = None
   ∧ Heatmap.img self = None)
  ∨ ∃ pts d o sz ar,
      Heatmap.points self = Some pts ∧ Heatmap.dotsize self = Some d
      ∧ Heatmap.opacity self = Some o ∧ Heatmap.size self = Some sz
      ∧ Heatmap.area self = Some (stored_area ar)
      ∧ Heatmap.override self = Some (stored_override ar).

Lemma reachable_facts (c_float : Q → Q) (tx : tx_args → Z * list Z)
    (schemes : gmap string ColorScheme) (self : Heatmap.t) :
  reachable c_float tx schemes self →
  Heatmap._schemes self = schemes
  ∧ coherent self
  ∧ ∀ im, Heatmap.img self = Some im → im_mode im = "RGBA".
Proof.
  intros Hreach.
  induction Hreach as [|self pts d o sz name ar Hreach (IHs & IHc & IHi)].
  - split; [reflexivity|]. split; [left; by repeat split|]. discriminate.
  - destruct (Heatmap.heatmap c_float tx self pts d o sz name ar)
      as [self' r] eqn:Hcall. cbn [fst].
    destruct (heatmap_state _ _ _ _ _ _ _ _ _ _ _ Hcall)
      as (Hp & Hd & Ho & Hsz & Ha & Hv & Hsch & Hi).
    split; [congruence|]. split.
    + right. exists pts, d, o, sz, ar. by repeat split.
    + intros im Him. destruct r as [e|im'].
      * apply IHi. congruence.
      * destruct (heatmap_success_kernel _ _ _ _ _ _ _ _ _ _ _ Hcall)
          as (a & _ & _ & _ & _ & _ & _ & Hframe).
        rewrite Hi in Him. injection Him as <-. by rewrite Hframe.
Qed.

(** No sequence of calls changes the scheme registry, and the argument
    attributes are always coherent: all [None] (then there is no image
    either), or all set by the same call.  A stored image is an RGBA image
    built by a call that succeeded. *)
Theorem reachable_invariant :
  ∀ (c_float : Q → Q) (tx : tx_args → Z * list Z)
    (schemes : gmap string ColorScheme) (self : Heatmap.t),
    reachable c_float tx schemes self →
    Heatmap._schemes self = schemes
    ∧ coherent self
    ∧ ∀ im, Heatmap.img self = Some im → im_mode im = "RGBA".
Proof. intros c_float tx schemes self. apply reachable_facts. Qed.

Lemma reachable_invariant_witness :
  Heatmap._schemes rendered = demo_schemes.
Proof.
  apply (reachable_invariant c_float_id Kernel.tx demo_schemes rendered).
  unfold rendered, render. apply reach_call. apply reach_init.
Defined.

(** On an instance a program can hold, [get_bounds] raises in two cases
    only: [heatmap] was never called ([TypeError], the points are [None]),
    or its last call had no area and no points ([IndexError]).  In every
    other case it returns the bounds of the last call. *)
Theorem get_bounds_failure :
  ∀ (c_float : Q → Q) (tx : tx_args → Z * list Z)
    (schemes : gmap string ColorScheme) (self : Heatmap.t),
    reachable c_float tx schemes self →
    (∀ e, Heatmap.get_bounds self = inl e →
          (e = TypeError_NoneSubscript ∧ Heatmap.points self = None
           ∧ Heatmap.img self = None)
          ∨ (e = IndexError_ListIndex ∧ Heatmap.points self = Some []
             ∧ Heatmap.override self = Some 0))
    ∧ (Heatmap.points self = None →
       Heatmap.get_bounds self = inl TypeError_NoneSubscript)
    ∧ (Heatmap.points self = Some [] → Heatmap.override self = Some 0 →
       Heatmap.get_bounds self = inl IndexError_ListIndex).
Proof.
  intros c_float tx schemes self Hreach.
  destruct (reachable_facts _ _ _ _ Hreach) as (_ & Hcoh & _).
  unfold Heatmap.get_bounds.
  destruct Hcoh as [(Hp & _ & _ & _ & Ha & Hv & Hi)
                   |(pts & d & o & sz & ar & Hp & _ & _ & _ & Ha & Hv)];
    rewrite Hp, Hv; cbn [Heatmap.truthy].
  - repeat split.
    + intros e [= <-]. left. by repeat split.
    + discriminate.
  - destruct ar as [a|]; cbn [stored_override Z.eqb negb].
    + rewrite Ha. repeat split; try discriminate.
    + destruct pts as [|p0 rest].
      * repeat split; try discriminate.
        intros e [= <-]. right. by repeat split.
      * destruct (create_bbox_spec p0 rest) as [b [Hb _]]. rewrite Hb.
        repeat split; discriminate.
Qed.

Lemma get_bounds_failure_witness :
  Heatmap.get_bounds demo = inl TypeError_NoneSubscript.
Proof.
  apply (proj1 (proj2 (get_bounds_failure c_float_id Kernel.tx demo_schemes
                         demo (reach_init _ _ _)))).
  reflexivity.
Defined.

(** ** The files [save_kml] writes *)

Lemma rfind_from_range (c : ascii) (s : string) (i last : Z) :
  OsPath.rfind_from c s i last = last
  ∨ i <= OsPath.rfind_from c s i last < i + Z.of_nat (String.length s).
Proof.
  revert i last. induction s as [|a s IH]; intros i last.
  - by left.
  - cbn [OsPath.rfind_from String.length].
    destruct (IH (i + 1) (if Ascii.eqb a c then i else last)) as [Heq|Hin].
    + rewrite Heq. destruct (Ascii.eqb a c); [right; lia | by left].
    + right. lia.
Qed.

Lemma substring_full (s : string) :
  String.substring 0 (String.length s) s = s.
Proof. induction s as [|a s IH]; [reflexivity|]. cbn. by rewrite IH. Qed.

Lemma substring_split (p : string) (n : nat) :
  (n <= String.length p)%nat →
  String.append (String.substring 0 n p)
                (String.substring n (String.length p - n) p) = p.
Proof.
  revert n. induction p as [|a p IH]; intros n Hn.
  - destruct n; [reflexivity | cbn in Hn; lia].
  - destruct n as [|n].
    + cbn [String.substring String.append String.length Nat.sub].
      by rewrite substring_full.
    + cbn [String.substring String.length Nat.sub].
      transitivity
        (String a (String.append (String.substring 0 n p)
                     (String.substring n (String.length p - n) p)));
        [reflexivity|].
      rewrite IH; [reflexivity | cbn in Hn; lia].
Qed.

Lemma append_empty_r (s : string) : String.append s EmptyString = s.
Proof.
  induction s as [|a s IH]; [reflexivity|].
  transitivity (String a (String.append s EmptyString)); [reflexivity|].
  by rewrite IH.
Qed.

(** [splitext] cuts its argument in two. *)
Lemma splitext_roundtrip (p : string) :
  String.append (fst (OsPath.splitext p)) (snd (OsPath.splitext p)) = p.
Proof.
  unfold OsPath.splitext.
  destruct ((OsPath.rfind "/" p <? OsPath.rfind "." p)
            && OsPath.has_non_dot p (OsPath.rfind "/" p + 1)
                 (Z.to_nat (OsPath.rfind "." p - (OsPath.rfind "/" p + 1))))
    eqn:Hc; cbn [fst snd].
  - apply substring_split.
    apply andb_true_iff in Hc as [Hlt _]. apply Z.ltb_lt in Hlt.
    unfold OsPath.rfind in *.
    destruct (rfind_from_range "/" p 0 (-1)) as [Hs|Hs];
      destruct (rfind_from_range "." p 0 (-1)) as [Hd|Hd]; lia.
  - apply append_empty_r.
Qed.

Lemma append_cancel_l (s a b : string) :
  String.append s a = String.append s b → a = b.
Proof.
  induction s as [|c s IH]; [done|].
  change (String c (String.append s a) = String c (String.append s b) → a = b).
  intros [= H]. by apply IH.
Qed.

(** Every path but the KML file and the PNG beside it is left alone,
    whether [save_kml] returns or raises. *)
Theorem save_kml_frame :
  ∀ (fmt_f : Q → string) (self : Heatmap.t)
    (fs fs' : gmap string file_content) (kml_file : string)
    (r : exn + unit) (p : string),
    Heatmap.save_kml fmt_f self fs kml_file = (fs', r) →
    p ≠ kml_file →
    p ≠ String.append (fst (OsPath.splitext kml_file)) ".png" →
    fs' !! p = fs !! p.
Proof.
  intros fmt_f self fs fs' kml_file r p Hsave Hk Hr.
  unfold Heatmap.save_kml in Hsave.
  destruct (Heatmap.img self) as [im|]; [|by injection Hsave as <- _].
  destruct (Heatmap.get_bounds self) as [e|[[east south] [west north]]];
    injection Hsave as <- _.
  - by rewrite lookup_insert_ne.
  - rewrite lookup_insert_ne by done. by rewrite lookup_insert_ne.
Qed.

Lemma save_kml_frame_witness :
  fst (Heatmap.save_kml fmt_f_int rendered
         (<["notes.txt" := Text "keep"]> ∅) "06-wash-dc.kml") !! "notes.txt"
  = Some (Text "keep").
Proof.
  destruct (Heatmap.save_kml fmt_f_int rendered
              (<["notes.txt" := Text "keep"]> ∅) "06-wash-dc.kml")
    as [fs' r] eqn:E.
  cbn [fst].
  rewrite (save_kml_frame fmt_f_int rendered _ fs' "06-wash-dc.kml" r
             "notes.txt" E);
    [apply lookup_insert_eq | discriminate | vm_compute; discriminate].
Defined.

(** Which files hold what after [save_kml] returned.  The KML file holds the
    overlay text.  The PNG is written first, under the KML file's name with
    its extension replaced by ".png"; when the KML file's own extension is
    ".png" the two paths are the same and the KML text has replaced the
    image, otherwise the PNG file holds the image. *)
Theorem save_kml_files :
  ∀ (fmt_f : Q → string) (self : Heatmap.t) (im : Image) (b : Area)
    (fs : gmap string file_content) (kml_file : string),
    Heatmap.img self = Some im →
    Heatmap.get_bounds self = inr b →
    let root := fst (OsPath.splitext kml_file) in
    let ext := snd (OsPath.splitext kml_file) in
    let fs' := fst (Heatmap.save_kml fmt_f self fs kml_file) in
    let kml :=
      Text (Heatmap._KML_TPL (String.append root ".png")
              (fmt_f (snd (snd b))) (fmt_f (snd (fst b)))
              (fmt_f (fst (fst b))) (fmt_f (fst (snd b)))) in
    String.append root ext = kml_file
    ∧ fs' !! kml_file = Some kml
    ∧ (ext ≠ ".png"%string →
       fs' !! String.append root ".png" = Some (PNG im))
    ∧ (ext = ".png"%string → fs' = <[kml_file := kml]> fs).
Proof.
  intros fmt_f self im [[east south] [west north]] fs kml_file Himg Hb
    root ext fs' kml.
  pose proof (splitext_roundtrip kml_file) as Hrt. fold root ext in Hrt.
  assert (Hfs : fs' = <[kml_file := kml]>
                        (<[String.append root ".png" := PNG im]> fs)).
  { unfold fs', Heatmap.save_kml. rewrite Himg, Hb. reflexivity. }
  split; [exact Hrt|]. split; [rewrite Hfs; apply lookup_insert_eq|]. split.
  - intros Hext. rewrite Hfs. rewrite lookup_insert_ne.
    + apply lookup_insert_eq.
    + intros Heq. apply Hext. rewrite <- Hrt in Heq.
      symmetry. exact (append_cancel_l root _ _ (eq_sym Heq)).
  - intros Hext. rewrite Hfs. rewrite Hext in Hrt. rewrite Hrt.
    apply insert_insert_eq.
Qed.

Lemma save_kml_files_witness :
  fst (Heatmap.save_kml fmt_f_int rendered ∅ "map.png")
  = <["map.png" :=
        Text (Heatmap._KML_TPL "map.png"
                "10.0000000000000000" "0.0000000000000000"
                "0.0000000000000000" "10.0000000000000000")]> ∅.
Proof.
  destruct (Heatmap.img rendered) as [im|] eqn:Himg;
    [|vm_compute in Himg; discriminate Himg].
  assert (Hb : Heatmap.get_bounds rendered = inr ((0, 0), (10, 10))%Q)
    by (vm_compute; reflexivity).
  exact (proj2 (proj2 (proj2 (save_kml_files fmt_f_int rendered im
                                ((0, 0), (10, 10))%Q ∅ "map.png" Himg Hb)))
           eq_refl).
Defined.

(** Saving twice is saving once: a second [save_kml] to the same name leaves
    the file system and the outcome of the first. *)
Theorem save_kml_idempotent :
  ∀ (fmt_f : Q → string) (self : Heatmap.t)
    (fs : gmap string file_content) (kml_file : string),
    Heatmap.save_kml fmt_f self
      (fst (Heatmap.save_kml fmt_f self fs kml_file)) kml_file
    = Heatmap.save_kml fmt_f self fs kml_file.
Proof.
  intros fmt_f self fs kml_file. unfold Heatmap.save_kml.
  destruct (Heatmap.img self) as [im|]; [|reflexivity].
  destruct (Heatmap.get_bounds self) as [e|[[east south] [west north]]];
    cbn [fst]; f_equal.
  - apply insert_insert_eq.
  - apply map_eq. intros p. rewrite !lookup_insert.
    repeat case_decide; reflexivity.
Qed.

(** After a call of [heatmap] that raised, [save_kml] still runs on the image
    of the last successful render, with the bounds of the call that raised.
    When that call named an area, the old image is written together with a
    KML whose LatLonBox is that area.  When it had no area and no points,
    the PNG is written and then [IndexError] is raised: no KML is written. *)
Theorem save_kml_after_failed_render :
  ∀ (c_float : Q → Q) (tx : tx_args → Z * list Z) (fmt_f : Q → string)
    self pts d o sz name ar self' (e : exn) (im : Image)
    (fs : gmap string file_content) (kml_file : string),
    Heatmap.img self = Some im →
    Heatmap.heatmap c_float tx self pts d o sz name ar = (self', inl e) →
    let raster_path :=
      String.append (fst (OsPath.splitext kml_file)) ".png" in
    (∀ a : Area,
       ar = Some a →
       Heatmap.save_kml fmt_f self' fs kml_file
       = (<[kml_file :=
              Text (Heatmap._KML_TPL raster_path
                      (fmt_f (snd (snd a))) (fmt_f (snd (fst a)))
                      (fmt_f (fst (fst a))) (fmt_f (fst (snd a))))]>
            (<[raster_path := PNG im]> fs),
          inr tt))
    ∧ (ar = None → pts = [] →
       Heatmap.save_kml fmt_f self' fs kml_file
       = (<[raster_path := PNG im]> fs, inl IndexError_ListIndex)).
Proof.
  intros c_float tx fmt_f self pts d o sz name ar self' e im fs kml_file
    Himg Hcall raster_path.
  destruct (heatmap_state _ _ _ _ _ _ _ _ _ _ _ Hcall)
    as (_ & _ & _ & _ & _ & _ & _ & Hi).
  pose proof (get_bounds_after_call _ _ _ _ _ _ _ _ _ _ _ Hcall) as Hb.
  rewrite Himg in Hi. unfold Heatmap.save_kml. rewrite Hi, Hb. split.
  - intros [[east south] [west north]] ->. reflexivity.
  - intros -> ->. reflexivity.
Qed.

Lemma save_kml_after_failed_render_witness :
  ∃ im,
    Heatmap.img rendered = Some im
    ∧ Heatmap.save_kml fmt_f_int
        (fst (render rendered [] 3 255 (4, 4) "nope" None)) ∅ "out.kml"
      = (<["out.png" := PNG im]> ∅, inl IndexError_ListIndex).
Proof.
  destruct (Heatmap.img rendered) as [im|] eqn:Himg;
    [|vm_compute in Himg; discriminate Himg].
  exists im. split; [reflexivity|].
  destruct (render rendered [] 3 255 (4, 4) "nope" None)
    as [self' [e|im']] eqn:E; [|vm_compute in E; discriminate E].
  cbn [fst].
  exact (proj2 (save_kml_after_failed_render c_float_id Kernel.tx fmt_f_int
                  rendered [] 3 255 (4, 4) "nope" None self' e im ∅ "out.kml"
                  Himg E) eq_refl eq_refl).
Defined.

(** ** The constructor *)

Section LoaderProperties.

Variables (system architecture0 : string) (sys_path : list string).
Variables (isfile : string → bool) (join : string → string → string).
Variable LoadLibrary : string → option Loader.Lib.

Local Abbreviation libname := (Loader.libname system architecture0).
Local Abbreviation search := (Loader.search system architecture0 isfile join LoadLibrary).
Local Abbreviation __init__ :=
  (Loader.__init__ system architecture0 sys_path isfile join LoadLibrary).

Lemma search_no_match (dirs : list string) (acc : option Loader.Lib) :
  (∀ d, d ∈ dirs → isfile (join d libname) = false) →
  search dirs acc = inr acc.
Proof.
  induction dirs as [|d dirs IH]; intros Hno; [reflexivity|].
  cbn [Loader.search]. rewrite (Hno d) by constructor.
  apply IH. intros d' Hd'. apply Hno. by constructor.
Qed.

Lemma search_none (dirs : list string) (acc : option Loader.Lib) :
  search dirs acc = inr None →
  acc = None ∧ ∀ d, d ∈ dirs → isfile (join d libname) = false.
Proof.
  revert acc. induction dirs as [|d dirs IH]; intros acc Hs.
  - cbn in Hs. split; [congruence|]. intros d Hd. inversion Hd.
  - cbn [Loader.search] in Hs.
    destruct (isfile (join d libname)) eqn:Hf.
    + destruct (LoadLibrary (join d libname)) as [lib|]; [|discriminate Hs].
      destruct (IH _ Hs) as [Habs _]. discriminate Habs.
    + destruct (IH _ Hs) as [-> Hno]. split; [reflexivity|].
      intros d' Hd'. apply elem_of_cons in Hd' as [->|Hd']; [exact Hf|].
      by apply Hno.
Qed.

Lemma search_never_not_found (dirs : list string) (acc : option Loader.Lib) :
  search dirs acc ≠ inl Loader.Exception_NotFound.
Proof.
  revert acc. induction dirs as [|d dirs IH]; intros acc; [discriminate|].
  cbn [Loader.search]. destruct (isfile (join d libname)); [|apply IH].
  destruct (LoadLibrary (join d libname)); [apply IH | discriminate].
Qed.

(** The constructor raises "Heatmap shared library not found in PYTHONPATH."
    exactly when no usable [libpath] was given ([None] or the empty string)
    and no directory of [sys.path] holds a file with the library's name. *)
Theorem init_not_found_iff :
  ∀ (libpath : option string) (schemes : gmap string ColorScheme),
    __init__ libpath schemes = inl Loader.Exception_NotFound
    ↔ Loader.given libpath = None
      ∧ ∀ d, d ∈ sys_path → isfile (join d libname) = false.
Proof.
  intros libpath schemes. unfold Loader.__init__. split.
  - destruct (Loader.given libpath) as [p|].
    + destruct (LoadLibrary p); discriminate.
    + destruct (search sys_path None) as [e|[lib|]] eqn:Hs.
      * intros [= ->]. by destruct (search_never_not_found sys_path None).
      * discriminate.
      * intros _. split; [reflexivity|]. by destruct (search_none _ _ Hs).
  - intros [-> Hno]. by rewrite (search_no_match sys_path None Hno).
Qed.

Lemma search_prefix (pre rest : list string) (acc : option Loader.Lib) :
  (∀ d, d ∈ pre → isfile (join d libname) = true →
        is_Some (LoadLibrary (join d libname))) →
  ∃ acc', search (pre ++ rest) acc = search rest acc'.
Proof.
  revert acc. induction pre as [|d pre IH]; intros acc Hload.
  - by exists acc.
  - cbn [app Loader.search].
    assert (Hpre : ∀ d', d' ∈ pre → isfile (join d' libname) = true →
                         is_Some (LoadLibrary (join d' libname))).
    { intros d' Hd'. apply Hload. by constructor. }
    destruct (isfile (join d libname)) eqn:Hf; [|by apply IH].
    destruct (Hload d (list_elem_of_here _ _) Hf) as [lib ->]. by apply IH.
Qed.

(** The search loop does not stop at the first hit: of the directories of
    [sys.path] that hold the library, the last one is the one whose library
    the instance keeps (provided the earlier hits could be loaded, since a
    load that fails raises).  The instance built has no image and no stored
    arguments. *)
Theorem init_last_wins :
  ∀ (libpath : option string) (schemes : gmap string ColorScheme)
    (pre post : list string) (d : string) (lib : Loader.Lib),
    Loader.given libpath = None →
    sys_path = pre ++ d :: post →
    isfile (join d libname) = true →
    LoadLibrary (join d libname) = Some lib →
    (∀ d', d' ∈ post → isfile (join d' libname) = false) →
    (∀ d', d' ∈ pre → isfile (join d' libname) = true →
           is_Some (LoadLibrary (join d' libname))) →
    __init__ libpath schemes = inr (lib, Heatmap.init schemes).
Proof.
  intros libpath schemes pre post d lib Hgiven -> Hf Hl Hpost Hpre.
  unfold Loader.__init__. rewrite Hgiven.
  destruct (search_prefix pre (d :: post) None Hpre) as [acc' ->].
  cbn [Loader.search]. rewrite Hf, Hl.
  by rewrite (search_no_match post (Some lib) Hpost).
Qed.

End LoaderProperties.

(** An environment for the examples: a POSIX [join], the library present in
    two directories of a three-entry path, a loader that accepts any path. *)
Definition posix_join (a b : string) : string :=
  String.append a (String.append "/" b).

Definition demo_isfile (p : string) : bool :=
  String.eqb p "/usr/lib/python/cHeatmap.so" || String.eqb p "./cHeatmap.so".

Lemma init_not_found_iff_witness :
  Loader.__init__ "Linux" "64bit" ["/tmp"; "/opt"] demo_isfile posix_join Some
    (Some EmptyString) demo_schemes
  = inl Loader.Exception_NotFound.
Proof.
  apply (proj2 (init_not_found_iff "Linux" "64bit" ["/tmp"; "/opt"]
                  demo_isfile posix_join Some (Some EmptyString)
                  demo_schemes)).
  split; [reflexivity|]. intros d Hd.
  rewrite !elem_of_cons, elem_of_nil in Hd.
  destruct Hd as [->|[->|[]]]; reflexivity.
Defined.

Lemma init_last_wins_witness :
  Loader.__init__ "Linux" "64bit" ["/usr/lib/python"; "/tmp"; "."]
    demo_isfile posix_join Some None demo_schemes
  = inr ("./cHeatmap.so"%string, demo).
Proof.
  apply (init_last_wins "Linux" "64bit" ["/usr/lib/python"; "/tmp"; "."]
           demo_isfile posix_join Some None demo_schemes
           ["/usr/lib/python"; "/tmp"] [] ".");
    try reflexivity.
  - intros d' Hd'. inversion Hd'.
  - intros d' _ _. by eexists.
Defined.
